(** * Chatbot backend: message validation and reply selection

    A shallow embedding of [backend_python/schemas.py] (the [ChatRequest]
    model and its [validate_message] field validator) and of
    [backend_python/main.py] (the [chat] endpoint), with the properties the
    specification states about them.

    Python strings are sequences of Unicode code points, so [str] is a list
    of code points: [len] is [length], [x in s] is [contains x s].  The
    string literals of the source are written as UTF-8 text and decoded. *)

From Stdlib Require Import String Ascii.
From Stdlib Require Import ZArith QArith Qround List Bool Lia Lqa.
From Stdlib Require Import Floats.SpecFloat.
Import ListNotations.

Local Open Scope Z_scope.

(** ** Python strings *)

Module Py.

(** A Unicode code point. *)
Definition char := Z.

(** A Python [str]. *)
Definition str := list char.

(** UTF-8 decoding of a byte sequence: [pending] continuation bytes are still
    expected for the code point accumulated in [acc]. *)
Fixpoint utf8_decode (pending : nat) (acc : Z) (bytes : list Z) : str :=
  match bytes with
  | [] => []
  | b :: rest =>
      match pending with
      | O =>
          if b <? 128 then b :: utf8_decode 0 0 rest
          else if b <? 224 then utf8_decode 1 (b - 192) rest
          else if b <? 240 then utf8_decode 2 (b - 224) rest
          else utf8_decode 3 (b - 240) rest
      | S O => (acc * 64 + (b - 128)) :: utf8_decode 0 0 rest
      | S n => utf8_decode n (acc * 64 + (b - 128)) rest
      end
  end.

(** A source literal, read as the Python string it denotes. *)
Definition lit (s : string) : str :=
  utf8_decode 0 0 (map (fun a => Z.of_nat (nat_of_ascii a)) (list_ascii_of_string s)).

(** [s.startswith(prefix)]. *)
Fixpoint startswith (prefix s : str) : bool :=
  match prefix, s with
  | [], _ => true
  | _ :: _, [] => false
  | p :: prefix', c :: s' => (p =? c) && startswith prefix' s'
  end.

(** [needle in s]: [needle] occurs in [s] at some offset. *)
Fixpoint contains (needle s : str) : bool :=
  startswith needle s ||
  match s with
  | [] => false
  | _ :: s' => contains needle s'
  end.

(** [s.endswith(suffix)]. *)
Definition endswith (suffix s : str) : bool :=
  startswith (rev suffix) (rev s).

(** The character tables of the interpreter: [str.isspace] and [str.isalnum]
    on one code point, and [str.lower] (which is not a character-wise map:
    a capital I with dot above lowers to two code points). *)
Class Unicode := {
  isspace : char -> bool;
  isalnum : char -> bool;
  lower : str -> str
}.

(** Drops the leading characters that satisfy [p]. *)
Fixpoint lstrip_by (p : char -> bool) (s : str) : str :=
  match s with
  | [] => []
  | c :: s' => if p c then lstrip_by p s' else s
  end.

Section WithUnicode.
Context {U : Unicode}.

(** [s.lstrip()], [s.rstrip()] and [s.strip()] with no argument: runs of
    whitespace are removed from the ends. *)
Definition lstrip (s : str) : str := lstrip_by isspace s.
Definition rstrip (s : str) : str := rev (lstrip_by isspace (rev s)).
Definition strip (s : str) : str := rstrip (lstrip s).

(** [any(c.isalnum() for c in s)]. *)
Definition any_isalnum (s : str) : bool := existsb isalnum s.
End WithUnicode.

(** The tables restricted to Latin-1: exact on code points below 256
    (and, for [isspace], on all of Unicode); code points from 256 on are
    taken as caseless symbols.  Used to run the model on concrete inputs. *)
Definition latin1_isspace (c : char) : bool :=
  ((9 <=? c) && (c <=? 13)) || ((28 <=? c) && (c <=? 32)) ||
  (c =? 133) || (c =? 160) || (c =? 5760) ||
  ((8192 <=? c) && (c <=? 8202)) || (c =? 8232) || (c =? 8233) ||
  (c =? 8239) || (c =? 8287) || (c =? 12288).

Definition latin1_isalnum (c : char) : bool :=
  ((48 <=? c) && (c <=? 57)) || ((65 <=? c) && (c <=? 90)) ||
  ((97 <=? c) && (c <=? 122)) ||
  (c =? 170) || (c =? 178) || (c =? 179) || (c =? 181) || (c =? 185) ||
  (c =? 186) || ((188 <=? c) && (c <=? 190)) ||
  ((192 <=? c) && (c <=? 214)) || ((216 <=? c) && (c <=? 246)) ||
  ((248 <=? c) && (c <=? 255)).

Definition latin1_lower_char (c : char) : char :=
  if ((65 <=? c) && (c <=? 90)) ||
     ((192 <=? c) && (c <=? 214)) || ((216 <=? c) && (c <=? 222))
  then c + 32 else c.

Definition latin1 : Unicode := {|
  isspace := latin1_isspace;
  isalnum := latin1_isalnum;
  lower := map latin1_lower_char
|}.

End Py.

Import Py.

(** ** schemas.py: the request and response models *)

(** The error kinds Pydantic reports for the [message] field: the field is
    absent ([missing]), it violates [min_length] or [max_length], or the
    field validator raised [ValueError(msg)]. *)
Inductive ValidationError :=
| missing
| string_too_short
| string_too_long
| value_error (msg : str).

Inductive result (A : Type) :=
| Ok (a : A)
| Err (e : ValidationError).
Arguments Ok {A} a.
Arguments Err {A} e.

(** The messages of the two [ValueError]s of [validate_message]. *)
Definition msg_empty : str :=
  lit "Mensagem não pode estar vazia ou conter apenas espaços".
Definition msg_no_alnum : str :=
  lit "Mensagem deve conter pelo menos um caractere alfanumérico".

(** The specification's names for the error kinds. *)
Definition MissingField : ValidationError := missing.
Definition EmptyMessage : ValidationError := value_error msg_empty.
Definition NoAlphanumericContent : ValidationError := value_error msg_no_alnum.
Definition TooLong : ValidationError := string_too_long.

Record ChatRequest := {
  message : str;
  user_id : option str
}.

Record ChatResponse := {
  reply : str;
  timestamp : str;
  message_length : option nat;
  processing_time : option Q
}.

Section Validation.
Context {U : Unicode}.

(** [ChatRequest.validate_message], the [field_validator] of [message]. *)
Definition validate_message (v : str) : result str :=
  let v := strip v in
  match v with
  | [] => Err (value_error msg_empty)
  | _ :: _ =>
      if negb (any_isalnum v) then Err (value_error msg_no_alnum)
      else Ok v
  end.

(** The [message] field: required ([...]), a string with [min_length=1]
    and [max_length=1000] measured on the value received, then the field
    validator (a [field_validator] runs after the field's own
    constraints). *)
Definition validate (raw : option str) : result str :=
  match raw with
  | None => Err missing
  | Some v =>
      if (length v <? 1)%nat then Err string_too_short
      else if (1000 <? length v)%nat then Err string_too_long
      else validate_message v
  end.

(** Construction of a [ChatRequest] from the fields of the request body;
    [user_id] is optional and unconstrained. *)
Definition ChatRequest_validate (raw_message raw_user_id : option str)
  : result ChatRequest :=
  match validate raw_message with
  | Ok v => Ok {| message := v; user_id := raw_user_id |}
  | Err e => Err e
  end.
End Validation.

(** ** Binary64 floating point

    Python's [float] is IEEE 754 binary64; its operations are those of
    [SpecFloat] at precision 53 and maximal exponent 1024. *)

Module Float64.

Definition prec : Z := 53.
Definition emax : Z := 1024.

Definition float := spec_float.

Definition add : float -> float -> float := SFadd prec emax.
Definition leb : float -> float -> bool := SFleb.
Definition ltb : float -> float -> bool := SFltb.

(** The floats [0.5] and [1.5]. *)
Definition half : float := binary_normalize prec emax 1 (-1) false.
Definition one_and_half : float := binary_normalize prec emax 3 (-1) false.

(** The float [k / 2**53] that [random.random()] builds from 53 random bits
    [k] ([(a*67108864.0+b)*(1.0/9007199254740992.0)] with [a] of 27 bits and
    [b] of 26 bits: every step is exact). *)
Definition of_bits53 (k : Z) : float := binary_normalize prec emax k (-53) false.

(** The rational a float denotes (zero for the non-finite ones, which the
    computations below never produce). *)
Definition to_Q (x : float) : Q :=
  match x with
  | S754_finite s m e =>
      match e with
      | Z0 => inject_Z (cond_Zopp s (Zpos m))
      | Zpos p => inject_Z (cond_Zopp s (Zpos m) * 2 ^ Zpos p)
      | Zneg p => Qmake (cond_Zopp s (Zpos m)) (2 ^ p)
      end
  | _ => 0%Q
  end.

End Float64.

(** ** The interpreter's services used by main.py *)

(** The [random] module: [random.random()] draws 53 bits, and
    [random.choice(seq)] is [seq[randbelow(len(seq))]]. *)
Class RandomSource (G : Type) := {
  genrand_res53 : G -> Z * G;
  randbelow : nat -> G -> nat * G;
  genrand_res53_range : forall g, 0 <= fst (genrand_res53 g) < 2 ^ 53;
  randbelow_range :
    forall n g, (0 < n)%nat -> (fst (randbelow n g) < n)%nat
}.

(** The wall clock, in seconds: [time.time()], [datetime.utcnow().isoformat()]
    and the suspension [await asyncio.sleep(d)].  Clock readings are exact
    rationals.  [sleep_elapses]: a reading taken after a sleep of [d] seconds
    is at least [d] later than a reading taken before it. *)
Class Clock (C : Type) := {
  time_time : C -> Q * C;
  utcnow_isoformat : C -> str * C;
  sleep : Q -> C -> C;
  sleep_elapses :
    forall d c,
      (fst (time_time c) + d <= fst (time_time (sleep d (snd (time_time c)))))%Q
}.

(** What the endpoint does besides returning: the two [logger.info] records
    (with the values interpolated in them) and the sleep. *)
Inductive Event :=
| LogReceived (message : str) (user_id : option str)
| LogSent (reply_prefix : str) (processing_time : Q)
| Slept (delay : Float64.float).

Record World (G C : Type) := {
  rng : G;
  clock : C;
  trace : list Event
}.
Arguments rng {G C} w.
Arguments clock {G C} w.
Arguments trace {G C} w.

(** [round(x, 3)]: the multiple of 1/1000 nearest to [x], ties to the even
    one. *)
Definition round_half_even (x : Q) : Z :=
  let f := Qfloor x in
  match ((x - inject_Z f) ?= 1 # 2)%Q with
  | Lt => f
  | Gt => f + 1
  | Eq => if Z.even f then f else f + 1
  end.

Definition round3 (x : Q) : Q := Qmake (round_half_even (x * 1000)) 1000.

(** ** main.py *)

(** [BOT_RESPONSES]. *)
Definition BOT_RESPONSES : list str := [
  lit "Interessante! Me conte mais sobre isso.";
  lit "Entendo o que você está dizendo.";
  lit "Isso é muito legal! Continue...";
  lit "Hmm, deixe-me pensar sobre isso...";
  lit "Ótima pergunta! Aqui está o que penso:";
  lit "Posso ajudar você com isso!";
  lit "Isso me lembra de algo importante.";
  lit "Vamos explorar essa ideia juntos!"
].

(** The replies of the [if]/[elif] chain of [chat]. *)
Definition REPLY_GREETING : str := lit "Olá! Como posso ajudar você hoje? 😊".
Definition REPLY_WELLBEING : str :=
  lit "Estou muito bem, obrigado por perguntar! E você, como está?".
Definition REPLY_FAREWELL : str :=
  lit "Até logo! Foi um prazer conversar com você! 👋".
Definition REPLY_HELP : str :=
  lit "Claro! Estou aqui para ajudar. O que você precisa?".

(** The f-string of the question branch; 34 is the double quote. *)
Definition question_reply (message : str) : str :=
  lit "Boa pergunta! Sobre " ++ [34] ++ message ++ [34] ++
  lit ", eu diria que é um tópico interessante para explorarmos.".

Section Chat.
Context {U : Unicode} {G C : Type} {RS : RandomSource G} {CK : Clock C}.

(** Computations of the endpoint: state passing over the world. *)
Definition M (A : Type) : Type := World G C -> A * World G C.

Definition ret {A} (a : A) : M A := fun w => (a, w).
Definition bind {A B} (c : M A) (k : A -> M B) : M B :=
  fun w => let (a, w') := c w in k a w'.

Notation "x <- c ;; k" := (bind c (fun x => k))
  (at level 61, c at next level, right associativity).
Notation "c ;; k" := (bind c (fun _ => k))
  (at level 61, right associativity).

Definition emit (e : Event) : M unit :=
  fun w => (tt, {| rng := rng w; clock := clock w; trace := trace w ++ [e] |}).

(** [time.time()]. *)
Definition now : M Q :=
  fun w => let (t, c) := time_time (clock w) in
           (t, {| rng := rng w; clock := c; trace := trace w |}).

(** [datetime.utcnow().isoformat()]. *)
Definition utcnow : M str :=
  fun w => let (s, c) := utcnow_isoformat (clock w) in
           (s, {| rng := rng w; clock := c; trace := trace w |}).

(** [random.random()]. *)
Definition random_random : M Float64.float :=
  fun w => let (k, g) := genrand_res53 (rng w) in
           (Float64.of_bits53 k, {| rng := g; clock := clock w; trace := trace w |}).

(** [random.choice(seq)] for a sequence of strings; the index drawn is
    below [len(seq)], so the default of [nth] is returned only for the
    empty sequence (where Python raises [IndexError]). *)
Definition random_choice (seq : list str) : M str :=
  fun w => let (i, g) := randbelow (length seq) (rng w) in
           (nth i seq [], {| rng := g; clock := clock w; trace := trace w |}).

(** [await asyncio.sleep(delay)]. *)
Definition asyncio_sleep (delay : Float64.float) : M unit :=
  fun w => (tt, {| rng := rng w;
                   clock := sleep (Float64.to_Q delay) (clock w);
                   trace := trace w ++ [Slept delay] |}).

(** [logger.info(...)]. *)
Definition logger_info (e : Event) : M unit := emit e.

(** The [if]/[elif] chain of [chat], applied to the reply drawn from
    [BOT_RESPONSES]. *)
Definition contextual_reply (message message_lower reply : str) : str :=
  if contains (lit "olá") message_lower || contains (lit "oi") message_lower
  then REPLY_GREETING
  else if contains (lit "como vai") message_lower
  then REPLY_WELLBEING
  else if contains (lit "tchau") message_lower || contains (lit "adeus") message_lower
  then REPLY_FAREWELL
  else if contains (lit "ajuda") message_lower
  then REPLY_HELP
  else if contains (lit "?") message
  then question_reply message
  else reply.

(** The endpoint [POST /api/chat], given the validated request. *)
Definition chat (request : ChatRequest) : M ChatResponse :=
  start_time <- now ;;
  logger_info (LogReceived (message request) (user_id request)) ;;
  let message := message request in
  let message_lower := lower message in
  u <- random_random ;;
  let delay := Float64.add Float64.half u in
  asyncio_sleep delay ;;
  reply <- random_choice BOT_RESPONSES ;;
  let reply := contextual_reply message message_lower reply in
  end_time <- now ;;
  let processing_time := (end_time - start_time)%Q in
  logger_info (LogSent (firstn 50 reply) processing_time) ;;
  stamp <- utcnow ;;
  ret {| reply := reply;
         timestamp := stamp ++ lit "Z";
         message_length := Some (length message);
         processing_time := Some (round3 processing_time) |}.

(** The request handler: the body is validated into a [ChatRequest]
    (a failure is the 422 response) and passed to [chat]. *)
Definition post_api_chat (raw_message raw_user_id : option str)
  : M (result ChatResponse) :=
  match ChatRequest_validate raw_message raw_user_id with
  | Ok request => r <- chat request ;; ret (Ok r)
  | Err e => ret (Err e)
  end.
End Chat.

(** ** A simulated interpreter

    A linear congruential generator and a clock that advances only while
    sleeping: an instance of the services above on which the endpoint can be
    run. *)

Definition lcg_next (g : Z) : Z :=
  (6364136223846793005 * g + 1442695040888963407) mod 2 ^ 64.

Definition lcg_res53 (g : Z) : Z * Z := (g mod 2 ^ 53, lcg_next g).

Definition lcg_below (n : nat) (g : Z) : nat * Z :=
  (Z.to_nat (g mod Z.of_nat n), lcg_next g).

Lemma lcg_res53_range : forall g, 0 <= fst (lcg_res53 g) < 2 ^ 53.
Proof. intros g. simpl fst. apply Z.mod_pos_bound. reflexivity. Qed.

Lemma lcg_below_range :
  forall n g, (0 < n)%nat -> (fst (lcg_below n g) < n)%nat.
Proof.
  intros n g H. simpl fst.
  pose proof (Z.mod_pos_bound g (Z.of_nat n)). lia.
Qed.

Definition Lcg : RandomSource Z := {|
  genrand_res53 := lcg_res53;
  randbelow := lcg_below;
  genrand_res53_range := lcg_res53_range;
  randbelow_range := lcg_below_range
|}.

Definition sim_time (c : Q) : Q * Q := (c, c).

Definition sim_isoformat (c : Q) : str * Q :=
  (lit "2025-10-24T10:30:00.000000", c).

Definition sim_sleep (d c : Q) : Q := if Qle_bool 0 d then (c + d)%Q else c.

Lemma sim_sleep_elapses :
  forall d c,
    (fst (sim_time c) + d <= fst (sim_time (sim_sleep d (snd (sim_time c)))))%Q.
Proof.
  intros d c. unfold sim_time, sim_sleep. simpl fst. simpl snd.
  destruct (Qle_bool 0 d) eqn:E; simpl fst.
  - apply Qle_refl.
  - assert (~ (0 <= d)%Q) as N.
    { intros K. apply Qle_bool_iff in K. congruence. }
    apply Qnot_le_lt in N. lra.
Qed.

Definition SimClock : Clock Q := {|
  time_time := sim_time;
  utcnow_isoformat := sim_isoformat;
  sleep := sim_sleep;
  sleep_elapses := sim_sleep_elapses
|}.

(** A world of the simulation with generator state [seed], at time
    1761302400 (seconds since the epoch), nothing logged. *)
Definition sim_world (seed : Z) : World Z Q :=
  {| rng := seed; clock := inject_Z 1761302400; trace := [] |}.

(** The endpoint run on the simulation. *)
Definition sim_chat (request : ChatRequest) (seed : Z) : ChatResponse * World Z Q :=
  @chat latin1 Z Q Lcg SimClock request (sim_world seed).

Definition sim_post (raw_message raw_user_id : option str) (seed : Z)
  : result ChatResponse * World Z Q :=
  @post_api_chat latin1 Z Q Lcg SimClock raw_message raw_user_id (sim_world seed).

(** ** validation_examples.py: the other validation approaches *)

Section Examples.
Context {U : Unicode}.

(** [s.split()] with no argument: the maximal runs of non-whitespace
    characters of [s], in order.  A non-whitespace character is a word of
    its own when whitespace or the end follows, and otherwise extends the
    first word of the rest. *)
Fixpoint str_split (s : str) : list str :=
  match s with
  | [] => []
  | c :: s' =>
      if isspace c then str_split s'
      else match s' with
           | [] => [[c]]
           | d :: _ =>
               if isspace d then [c] :: str_split s'
               else match str_split s' with
                    | w :: ws => (c :: w) :: ws
                    | [] => [[c]]
                    end
           end
  end.

(** [sep.join(words)]. *)
Fixpoint str_join (sep : str) (words : list str) : str :=
  match words with
  | [] => []
  | [w] => w
  | w :: rest => w ++ sep ++ str_join sep rest
  end.

(** [' '.join(v.split())]; 32 is the space. *)
Definition collapse_spaces (v : str) : str := str_join [32] (str_split v).

(** [MessageValidated.validate_message_content]. *)
Definition validate_message_content (v : str) : result str :=
  let v := strip v in
  match v with
  | [] => Err (value_error (lit "Mensagem não pode estar vazia"))
  | _ :: _ =>
      if negb (any_isalnum v) then Err (value_error msg_no_alnum)
      else Ok (collapse_spaces v)
  end.

(** A required string field with [min_length] and [max_length], followed
    by the field validator [after]. *)
Definition str_field (min_length max_length : nat) (after : str -> result str)
    (raw : option str) : result str :=
  match raw with
  | None => Err missing
  | Some v =>
      if (length v <? min_length)%nat then Err string_too_short
      else if (max_length <? length v)%nat then Err string_too_long
      else after v
  end.

(** The [message] field of [MessageValidated]. *)
Definition MessageValidated_message : option str -> result str :=
  str_field 1 1000 validate_message_content.

(** [MessageStr] and [QueryMessage]: length constraints only. *)
Definition MessageStr : option str -> result str := str_field 1 1000 Ok.
Definition QueryMessage : option str -> result str := str_field 1 500 Ok.

(** [ChatRequestLogged.log_and_validate]: the record logged (the value
    received and its length) and the outcome. *)
Definition log_and_validate (v : str) : (str * nat) * result str :=
  let entrada := (v, length v) in
  let v := strip v in
  match v with
  | [] => (entrada, Err (value_error (lit "Mensagem vazia")))
  | _ :: _ => (entrada, Ok v)
  end.

(** The [message] field of [ChatRequestLogged]: what is logged, if
    anything, and the outcome. *)
Definition ChatRequestLogged_message (raw : option str)
    : option (str * nat) * result str :=
  match raw with
  | None => (None, Err missing)
  | Some v =>
      if (length v <? 1)%nat then (None, Err string_too_short)
      else if (1000 <? length v)%nat then (None, Err string_too_long)
      else let (entrada, r) := log_and_validate v in (Some entrada, r)
  end.

(** [forbidden_words] of [validate_message_manual]. *)
Definition forbidden_words : list str := [lit "spam"; lit "hack"].

(** [validate_message_manual]: the pair [(is_valid, error_message)]. *)
Definition validate_message_manual (message : str) : bool * str :=
  match message with
  | [] => (false, lit "Mensagem não pode estar vazia")
  | _ :: _ =>
      let message := strip message in
      if (length message <? 1)%nat then (false, lit "Mensagem muito curta")
      else if (1000 <? length message)%nat
      then (false, lit "Mensagem muito longa (máximo 1000 caracteres)")
      else if negb (any_isalnum message)
      then (false, lit "Mensagem deve conter pelo menos um caractere alfanumérico")
      else if existsb (fun word => contains word (lower message)) forbidden_words
      then (false, lit "Mensagem contém conteúdo proibido")
      else (true, [])
  end.

(** [POST /chat/v2], [chat_with_manual_validation]: the detail of the 400
    response, or the reply, which interpolates the message as received. *)
Definition chat_with_manual_validation (message : str) : str + str :=
  let (is_valid, error_msg) := validate_message_manual message in
  if negb is_valid then inl error_msg
  else inr (lit "Mensagem validada: " ++ message).
End Examples.

(** * Properties *)

(** ** Binary64 addition of [0.5] and a draw *)

Module Float64Facts.
Import Float64.

Lemma digits2_pos_size : forall p, digits2_pos p = Pos.size p.
Proof. induction p; simpl; congruence. Qed.

Lemma digits2_pos_bounds :
  forall p n, 2 ^ (n - 1) <= Zpos p < 2 ^ n -> Zpos (digits2_pos p) = n.
Proof.
  intros p n [Lo Hi]. rewrite digits2_pos_size.
  pose proof (Pos.size_gt p) as G. pose proof (Pos.size_le p) as L.
  apply Pos2Z.pos_lt_pos in G. apply Pos2Z.pos_le_pos in L.
  rewrite Pos2Z.inj_pow in G, L.
  set (d := Zpos (Pos.size p)) in *.
  assert (0 < d) by (subst d; lia).
  assert (0 < n).
  { destruct (Z_lt_le_dec 0 n); [assumption|].
    exfalso. destruct (Z.eq_dec n 0) as [->|].
    - simpl in Hi. lia.
    - rewrite (Z.pow_neg_r 2 n) in Hi by lia. lia. }
  destruct (Z_lt_le_dec d n) as [A|A].
  - assert (2 ^ d <= 2 ^ (n - 1)) by (apply Z.pow_le_mono_r; lia). lia.
  - destruct (Z.eq_dec d n) as [E|E]; [exact E|].
    assert (K : 2 ^ Z.succ n <= 2 ^ d) by (apply Z.pow_le_mono_r; lia).
    rewrite Z.pow_succ_r in K by lia. lia.
Qed.

Lemma iter_pos_nat :
  forall (A : Type) (f : A -> A) n x,
    iter_pos f n x = Nat.iter (Pos.to_nat n) f x.
Proof.
  intros A f. induction n as [n IH|n IH|]; intros x.
  - change (iter_pos f n~1 x) with (iter_pos f n (iter_pos f n (f x))).
    rewrite !IH, Pos2Nat.inj_xI.
    replace (S (2 * Pos.to_nat n)) with (S (Pos.to_nat n + Pos.to_nat n)) by lia.
    rewrite <- Nat.iter_add, <- Nat.iter_succ_r. reflexivity.
  - change (iter_pos f n~0 x) with (iter_pos f n (iter_pos f n x)).
    rewrite !IH, Pos2Nat.inj_xO.
    replace (2 * Pos.to_nat n)%nat with (Pos.to_nat n + Pos.to_nat n)%nat by lia.
    rewrite <- Nat.iter_add. reflexivity.
  - reflexivity.
Qed.

Lemma shr_nat :
  forall mrs e (j : nat),
    shr mrs e (Z.of_nat j) = (Nat.iter j shr_1 mrs, e + Z.of_nat j).
Proof.
  intros mrs e [|j].
  - simpl. rewrite Z.add_0_r. reflexivity.
  - unfold shr. rewrite Nat2Z.inj_succ.
    destruct (Z.succ (Z.of_nat j)) as [|p|p] eqn:E; try lia.
    rewrite iter_pos_nat. f_equal. f_equal. lia.
Qed.

Lemma shr_1_nonneg :
  forall m r s, 0 <= m ->
    shr_1 (Build_shr_record m r s) = Build_shr_record (Z.div2 m) (Z.odd m) (r || s).
Proof.
  intros [|[p|p|]|p] r s H; try reflexivity; lia.
Qed.

Lemma iter_shr_1_exact :
  forall (j : nat) q, 0 <= q ->
    Nat.iter j shr_1 (Build_shr_record (q * 2 ^ Z.of_nat j) false false)
    = Build_shr_record q false false.
Proof.
  induction j as [|j IH]; intros q Hq.
  - simpl. rewrite Z.mul_1_r. reflexivity.
  - rewrite Nat.iter_succ_r, shr_1_nonneg by lia.
    rewrite Nat2Z.inj_succ, Z.pow_succ_r by lia.
    replace (q * (2 * 2 ^ Z.of_nat j)) with (2 * (q * 2 ^ Z.of_nat j)) by ring.
    rewrite Z.div2_div, Z.odd_mul, (Z.mul_comm 2), Z.div_mul by lia.
    simpl. apply IH. exact Hq.
Qed.

Lemma digits_scaled :
  forall (m q : positive) (j : nat) n,
    Zpos m = Zpos q * 2 ^ Z.of_nat j ->
    2 ^ (n - 1) <= Zpos q < 2 ^ n -> 0 < n ->
    Zdigits2 (Zpos m) = n + Z.of_nat j.
Proof.
  intros m q j n E [Lo Hi] Hn. simpl. apply digits2_pos_bounds. rewrite E.
  replace (n + Z.of_nat j - 1) with ((n - 1) + Z.of_nat j) by lia.
  rewrite !Z.pow_add_r by lia.
  assert (0 < 2 ^ Z.of_nat j) by (apply Z.pow_pos_nonneg; lia).
  split; [apply Z.mul_le_mono_nonneg_r | apply Z.mul_lt_mono_pos_r]; lia.
Qed.

Lemma fexp_normal :
  forall x, -1021 <= x -> fexp prec emax x = x - 53.
Proof.
  intros x H. unfold fexp, emin, prec, emax. lia.
Qed.

Lemma shr_fexp_scaled :
  forall (m q : positive) (j : nat) n (s : nat) e,
    Zpos m = Zpos q * 2 ^ Z.of_nat j ->
    2 ^ (n - 1) <= Zpos q < 2 ^ n -> 0 < n ->
    n + Z.of_nat j = 53 + Z.of_nat s -> -1074 <= e + Z.of_nat s ->
    shr_fexp prec emax (Zpos m) e loc_Exact
    = (Nat.iter s shr_1 (Build_shr_record (Zpos m) false false), e + Z.of_nat s).
Proof.
  intros m q j n s e E B Hn D He. unfold shr_fexp.
  rewrite (digits_scaled m q j n E B Hn).
  replace (fexp prec emax (n + Z.of_nat j + e) - e) with (Z.of_nat s)
    by (unfold fexp, emin, prec, emax; lia).
  apply shr_nat.
Qed.

(** A mantissa of 53 bits, possibly followed by zero bits, is kept. *)
Lemma round_aux_exact :
  forall (m q : positive) (j : nat) e,
    Zpos m = Zpos q * 2 ^ Z.of_nat j ->
    2 ^ 52 <= Zpos q < 2 ^ 53 -> -1074 <= e + Z.of_nat j <= 971 ->
    binary_round_aux prec emax false (Zpos m) e loc_Exact
    = S754_finite false q (e + Z.of_nat j).
Proof.
  intros m q j e E B He. unfold binary_round_aux.
  rewrite (shr_fexp_scaled m q j 53 j e E) by (try exact B; lia).
  rewrite E, iter_shr_1_exact by lia.
  cbv beta iota zeta delta [shr_m loc_of_shr_record round_nearest_even].
  rewrite (shr_fexp_scaled q q 0 53 0 (e + Z.of_nat j)) by (try exact B; simpl; lia).
  cbv beta iota zeta delta [Nat.iter nat_rect shr_m].
  change (Z.of_nat 0) with 0. rewrite Z.add_0_r.
  destruct (Z.leb_spec (e + Z.of_nat j) (emax - prec)) as [_|H]; [reflexivity|].
  unfold emax, prec in H. lia.
Qed.

(** Round to nearest, ties to even, of [x / 2]. *)
Definition rne_half (x : Z) : Z :=
  let h := Z.div2 x in
  if Z.odd x then (if Z.even h then h else h + 1) else h.

Lemma rne_half_bounds :
  forall x, 2 ^ 53 <= x <= 3 * 2 ^ 52 -> 2 ^ 52 <= rne_half x <= 3 * 2 ^ 51.
Proof.
  intros x H. unfold rne_half. pose proof (Z.div2_odd x) as D.
  destruct (Z.odd x); [destruct (Z.even (Z.div2 x)) eqn:Ev|]; simpl Z.b2z in D.
  all: lia.
Qed.

(** A mantissa of 54 bits loses its last bit, rounded to nearest even. *)
Lemma round_aux_54 :
  forall (m q : positive) (j : nat) e,
    Zpos m = Zpos q * 2 ^ Z.of_nat j ->
    2 ^ 53 <= Zpos q <= 3 * 2 ^ 52 -> -1074 <= e + Z.of_nat j <= 970 ->
    binary_round_aux prec emax false (Zpos m) e loc_Exact
    = S754_finite false (Z.to_pos (rne_half (Zpos q))) (e + Z.of_nat j + 1).
Proof.
  intros m q j e E B He. unfold binary_round_aux.
  rewrite (shr_fexp_scaled m q j 54 (S j) e E) by lia.
  rewrite Nat.iter_succ, E, iter_shr_1_exact, shr_1_nonneg by lia.
  pose proof (rne_half_bounds (Zpos q) B) as R.
  assert (V : round_nearest_even (Z.div2 (Zpos q))
                (loc_of_shr_record
                   (Build_shr_record (Z.div2 (Zpos q)) (Z.odd (Zpos q)) (false || false)))
              = Zpos (Z.to_pos (rne_half (Zpos q)))).
  { rewrite Z2Pos.id by lia. unfold rne_half.
    destruct (Z.odd (Zpos q)); reflexivity. }
  cbv beta iota zeta delta [shr_m]. rewrite V.
  set (r := Z.to_pos (rne_half (Zpos q))) in *.
  assert (Br : 2 ^ 52 <= Zpos r < 2 ^ 53) by (subst r; rewrite Z2Pos.id; lia).
  rewrite (shr_fexp_scaled r r 0 53 0 (e + Z.of_nat (S j))) by (try exact Br; simpl; lia).
  cbv beta iota zeta delta [Nat.iter nat_rect shr_m].
  change (Z.of_nat 0) with 0. rewrite Z.add_0_r, Nat2Z.inj_succ.
  replace (e + Z.succ (Z.of_nat j)) with (e + Z.of_nat j + 1) by lia.
  destruct (Z.leb_spec (e + Z.of_nat j + 1) (emax - prec)) as [_|H]; [reflexivity|].
  unfold emax, prec in H. lia.
Qed.

Lemma digits2_pos_spec :
  forall p, 2 ^ (Zpos (digits2_pos p) - 1) <= Zpos p < 2 ^ Zpos (digits2_pos p).
Proof.
  intros p. rewrite digits2_pos_size.
  pose proof (Pos.size_gt p) as G. pose proof (Pos.size_le p) as L.
  apply Pos2Z.pos_lt_pos in G. apply Pos2Z.pos_le_pos in L.
  rewrite Pos2Z.inj_pow in G, L.
  replace (Zpos (Pos.size p)) with (Z.succ (Zpos (Pos.size p) - 1)) in L at 1 by lia.
  rewrite Z.pow_succ_r in L by lia. lia.
Qed.

Lemma iter_xO :
  forall m x, Zpos (Pos.iter xO m x) = Zpos m * 2 ^ Zpos x.
Proof.
  intros m x. induction x as [|x IH] using Pos.peano_ind.
  - simpl. lia.
  - rewrite Pos.iter_succ, Pos2Z.inj_xO, IH, Pos2Z.inj_succ, Z.pow_succ_r; lia.
Qed.

Lemma shl_align_le :
  forall m e e', e' <= e ->
    exists m', shl_align m e e' = (m', e') /\ Zpos m' = Zpos m * 2 ^ (e - e').
Proof.
  intros m e e' H. unfold shl_align.
  destruct (e' - e) as [|d|d] eqn:D; try lia.
  - exists m. replace e' with e by lia. rewrite Z.sub_diag. split; [reflexivity | simpl; lia].
  - exists (Pos.iter xO m d). split; [reflexivity|].
    rewrite iter_xO. f_equal. f_equal. lia.
Qed.

Lemma shl_align_ge :
  forall m e e', e <= e' -> shl_align m e e' = (m, e).
Proof.
  intros m e e' H. unfold shl_align.
  destruct (e' - e) as [|d|d] eqn:D; try reflexivity. lia.
Qed.

Lemma half_eq : half = S754_finite false 4503599627370496 (-53).
Proof. reflexivity. Qed.

Lemma one_and_half_eq : one_and_half = S754_finite false 6755399441055744 (-52).
Proof. reflexivity. Qed.

(** The canonical float of [p / 2**53]: the mantissa is shifted to 53
    bits. *)
Lemma of_bits53_pos :
  forall p, Zpos p < 2 ^ 53 ->
    let d := Zpos (digits2_pos p) in
    exists q, of_bits53 (Zpos p) = S754_finite false q (d - 106) /\
              Zpos q = Zpos p * 2 ^ (53 - d) /\ 1 <= d <= 53.
Proof.
  intros p H d. pose proof (digits2_pos_spec p) as S. fold d in S.
  assert (Hd : 1 <= d <= 53).
  { split; [subst d; lia|]. destruct (Z_lt_le_dec 53 d) as [A|A]; [|exact A].
    assert (2 ^ 53 <= 2 ^ (d - 1)) by (apply Z.pow_le_mono_r; lia). lia. }
  unfold of_bits53, binary_normalize, binary_round. fold d.
  rewrite fexp_normal by lia.
  destruct (shl_align_le p (-53) (d + -53 - 53)) as [q [E Q]]; [lia|].
  rewrite E. exists q.
  replace (-53 - (d + -53 - 53)) with (53 - d) in Q by lia.
  assert (B : 2 ^ 52 <= Zpos q < 2 ^ 53).
  { assert (P1 : 2 ^ 52 = 2 ^ (d - 1) * 2 ^ (53 - d))
      by (rewrite <- Z.pow_add_r by lia; f_equal; lia).
    assert (P2 : 2 ^ 53 = 2 ^ d * 2 ^ (53 - d))
      by (rewrite <- Z.pow_add_r by lia; f_equal; lia).
    assert (0 < 2 ^ (53 - d)) by (apply Z.pow_pos_nonneg; lia).
    rewrite Q. split.
    - rewrite P1. apply Z.mul_le_mono_nonneg_r; lia.
    - rewrite P2. apply Z.mul_lt_mono_pos_r; lia. }
  rewrite (round_aux_exact q q 0 (d + -53 - 53));
    [| change (Z.of_nat 0) with 0; lia | exact B | change (Z.of_nat 0) with 0; lia].
  change (Z.of_nat 0) with 0. rewrite Z.add_0_r.
  split; [f_equal; lia | split; [exact Q | exact Hd]].
Qed.

(** [0.5 + k / 2**53] in binary64: exact below 1, and from 1 on the sum has
    54 bits and is rounded to 53. *)
Theorem add_half_of_bits53 :
  forall k, 0 <= k < 2 ^ 53 ->
    add half (of_bits53 k)
    = if k <? 2 ^ 52
      then S754_finite false (Z.to_pos (2 ^ 52 + k)) (-53)
      else S754_finite false (Z.to_pos (rne_half (2 ^ 52 + k))) (-52).
Proof.
  intros [|p|p] [Hk0 Hk]; [reflexivity | | lia].
  destruct (of_bits53_pos p Hk) as [q [E [Q Hd]]].
  set (d := Zpos (digits2_pos p)) in *.
  rewrite E, half_eq. unfold add, SFadd.
  cbv beta iota zeta delta [cond_Zopp].
  rewrite Z.min_r by lia.
  destruct (shl_align_le 4503599627370496 (-53) (d - 106)) as [a [Ea A]]; [lia|].
  rewrite Ea, (shl_align_ge q (d - 106) (d - 106)) by lia.
  cbv beta iota zeta delta [fst].
  change (Zpos a + Zpos q) with (Zpos (a + q)).
  replace (-53 - (d - 106)) with (53 - d) in A by lia.
  set (j := Z.to_nat (53 - d)).
  assert (J : 53 - d = Z.of_nat j) by (subst j; lia).
  set (s := Z.to_pos (2 ^ 52 + Zpos p)).
  assert (S : Zpos s = 2 ^ 52 + Zpos p) by (subst s; rewrite Z2Pos.id; lia).
  assert (M : Zpos (a + q) = Zpos s * 2 ^ Z.of_nat j).
  { rewrite Pos2Z.inj_add, A, Q, S, J. change (Zpos 4503599627370496) with (2 ^ 52). ring. }
  unfold binary_normalize, binary_round.
  destruct (Z.ltb_spec (Zpos p) (2 ^ 52)) as [Lt|Ge].
  - assert (B : 2 ^ 52 <= Zpos s < 2 ^ 53) by lia.
    change (Zpos (digits2_pos (a + q))) with (Zdigits2 (Zpos (a + q))).
    rewrite (digits_scaled (a + q) s j 53 M) by (try exact B; lia).
    rewrite fexp_normal, shl_align_ge by lia.
    rewrite (round_aux_exact (a + q) s j (d - 106) M) by (try exact B; lia).
    f_equal. lia.
  - assert (B : 2 ^ 53 <= Zpos s <= 3 * 2 ^ 52) by lia.
    change (Zpos (digits2_pos (a + q))) with (Zdigits2 (Zpos (a + q))).
    rewrite (digits_scaled (a + q) s j 54 M) by lia.
    rewrite fexp_normal, shl_align_ge by lia.
    rewrite (round_aux_54 (a + q) s j (d - 106) M) by lia.
    rewrite S. f_equal. lia.
Qed.

End Float64Facts.
(** ** Stripping *)

Section StripFacts.
Variable p : char -> bool.

Lemma lstrip_by_all : forall s, forallb p s = true -> lstrip_by p s = [].
Proof.
  induction s as [|c s IH]; simpl; intros H; [reflexivity|].
  apply andb_true_iff in H as [Hc Hs]. rewrite Hc. auto.
Qed.

Lemma lstrip_by_split :
  forall s, exists pre, s = pre ++ lstrip_by p s /\ forallb p pre = true.
Proof.
  induction s as [|c s [pre [E A]]]; simpl.
  - exists []. split; reflexivity.
  - destruct (p c) eqn:Hc.
    + exists (c :: pre). simpl. rewrite Hc, A. split; [f_equal; exact E | reflexivity].
    + exists []. split; reflexivity.
Qed.

Lemma lstrip_by_head :
  forall s c r, lstrip_by p s = c :: r -> p c = false.
Proof.
  induction s as [|a s IH]; simpl; intros c r H; [discriminate|].
  destruct (p a) eqn:Ha; [eauto|]. injection H as -> _. exact Ha.
Qed.

Lemma lstrip_by_keep :
  forall s, (forall c r, s = c :: r -> p c = false) -> lstrip_by p s = s.
Proof.
  intros [|c r] H; simpl; [reflexivity|].
  rewrite (H c r eq_refl). reflexivity.
Qed.

Lemma lstrip_by_length : forall s, (length (lstrip_by p s) <= length s)%nat.
Proof.
  induction s as [|c s IH]; simpl; [lia|]. destruct (p c); simpl; lia.
Qed.

Lemma lstrip_by_existsb :
  forall q s, existsb q s = false -> existsb q (lstrip_by p s) = false.
Proof.
  intros q s H. destruct (lstrip_by_split s) as [pre [E _]].
  rewrite E, existsb_app in H. apply orb_false_iff in H. tauto.
Qed.
End StripFacts.

Lemma existsb_rev : forall (q : char -> bool) s, existsb q (rev s) = existsb q s.
Proof.
  intros q s. induction s as [|c s IH]; simpl; [reflexivity|].
  rewrite existsb_app, IH. simpl. rewrite orb_false_r. apply orb_comm.
Qed.

Lemma forallb_rev : forall (q : char -> bool) s, forallb q (rev s) = forallb q s.
Proof.
  intros q s. induction s as [|c s IH]; simpl; [reflexivity|].
  rewrite forallb_app, IH. simpl. rewrite andb_true_r. apply andb_comm.
Qed.

Section StripUnicode.
Context {U : Unicode}.

(** What [strip] removes: [s] is its result between two runs of
    whitespace, and the result neither starts nor ends with whitespace. *)
Lemma strip_split :
  forall s, exists pre post,
    s = pre ++ strip s ++ post /\
    forallb isspace pre = true /\ forallb isspace post = true.
Proof.
  intros s. unfold strip, rstrip, lstrip.
  destruct (lstrip_by_split isspace s) as [pre [E A]].
  destruct (lstrip_by_split isspace (rev (lstrip_by isspace s))) as [tl [E' A']].
  exists pre, (rev tl). split; [|split].
  - rewrite <- rev_app_distr, <- E', rev_involutive. exact E.
  - exact A.
  - rewrite forallb_rev. exact A'.
Qed.

Lemma strip_first :
  forall s c r, strip s = c :: r -> isspace c = false.
Proof.
  intros s c r H. unfold strip, rstrip, lstrip in H.
  destruct (lstrip_by_split isspace (rev (lstrip_by isspace s))) as [tl [E _]].
  apply (f_equal (@rev char)) in E. rewrite rev_involutive, rev_app_distr, H in E.
  simpl in E. eapply lstrip_by_head. exact E.
Qed.

Lemma strip_last :
  forall s c r, strip s = r ++ [c] -> isspace c = false.
Proof.
  intros s c r H. unfold strip, rstrip in H.
  apply (f_equal (@rev char)) in H. rewrite rev_involutive, rev_app_distr in H.
  simpl in H. eapply lstrip_by_head. exact H.
Qed.

Lemma strip_idempotent : forall s, strip (strip s) = strip s.
Proof.
  intros s.
  assert (L : lstrip (strip s) = strip s).
  { apply lstrip_by_keep. intros c r E. eapply strip_first. exact E. }
  unfold strip at 1. rewrite L. unfold rstrip.
  rewrite (lstrip_by_keep isspace (rev (strip s))).
  - apply rev_involutive.
  - intros c r E. apply (strip_last s c (rev r)).
    rewrite <- (rev_involutive (strip s)), E. reflexivity.
Qed.

Lemma strip_length : forall s, (length (strip s) <= length s)%nat.
Proof.
  intros s. unfold strip, rstrip, lstrip.
  rewrite length_rev.
  etransitivity; [apply lstrip_by_length|].
  rewrite length_rev. apply lstrip_by_length.
Qed.

Lemma strip_whitespace : forall s, forallb isspace s = true -> strip s = [].
Proof.
  intros s H. unfold strip, lstrip. rewrite (lstrip_by_all _ _ H). reflexivity.
Qed.

Lemma strip_no_alnum :
  forall s, any_isalnum s = false -> any_isalnum (strip s) = false.
Proof.
  unfold any_isalnum, strip, rstrip, lstrip. intros s H.
  rewrite existsb_rev. apply lstrip_by_existsb.
  rewrite existsb_rev. apply lstrip_by_existsb. exact H.
Qed.

(** ** The validator *)

Lemma validate_message_Ok :
  forall v c, validate_message v = Ok c ->
    c = strip v /\ c <> [] /\ any_isalnum c = true.
Proof.
  unfold validate_message. intros v c.
  destruct (strip v) as [|a r] eqn:E; [discriminate|].
  destruct (any_isalnum (a :: r)) eqn:A; simpl; [|discriminate].
  intros H. injection H as <-. repeat split; [discriminate | exact A].
Qed.

Lemma validate_Ok :
  forall raw c, validate raw = Ok c ->
    exists s, raw = Some s /\ (1 <= length s <= 1000)%nat /\
              validate_message s = Ok c.
Proof.
  unfold validate. intros [s|] c; [|discriminate].
  destruct (length s <? 1)%nat eqn:L1; [discriminate|].
  destruct (1000 <? length s)%nat eqn:L2; [discriminate|].
  apply Nat.ltb_ge in L1, L2. intros H. exists s. auto.
Qed.

Lemma validate_max_length :
  forall s, (length s > 1000)%nat -> validate (Some s) = Err string_too_long.
Proof.
  intros s H. unfold validate.
  destruct (length s <? 1)%nat eqn:L1; [apply Nat.ltb_lt in L1; lia|].
  destruct (1000 <? length s)%nat eqn:L2; [reflexivity|].
  apply Nat.ltb_ge in L2. lia.
Qed.

(** C2: a string of more than 1000 characters, counted before any
    trimming, is rejected with [TooLong], whatever it contains. *)
Theorem C2_too_long :
  forall s, (length s > 1000)%nat -> validate (Some s) = Err TooLong.
Proof.
  intros s H. unfold TooLong. apply validate_max_length. exact H.
Qed.

(** C3, as the code has it: a whitespace-only string of 1 to 1000
    characters is rejected with [EmptyMessage]; the empty string is
    rejected by the [min_length] constraint, a whitespace-only string of
    more than 1000 characters with [TooLong], and an absent field with
    [MissingField]. *)
Theorem C3_whitespace_only :
  forall s, forallb isspace s = true ->
    ((1 <= length s <= 1000)%nat -> validate (Some s) = Err EmptyMessage) /\
    (s = [] -> validate (Some s) = Err string_too_short) /\
    ((length s > 1000)%nat -> validate (Some s) = Err TooLong) /\
    validate None = Err MissingField.
Proof.
  intros s W. repeat split.
  - intros [L1 L2]. unfold validate.
    destruct (length s <? 1)%nat eqn:E1; [apply Nat.ltb_lt in E1; lia|].
    destruct (1000 <? length s)%nat eqn:E2; [apply Nat.ltb_lt in E2; lia|].
    unfold validate_message. rewrite (strip_whitespace s W). reflexivity.
  - intros ->. reflexivity.
  - apply validate_max_length.
Qed.

(** C4, as the code has it: a string of at most 1000 characters with no
    alphanumeric character that is not empty after trimming is rejected
    with [NoAlphanumericContent]. *)
Theorem C4_no_alphanumeric :
  forall s, any_isalnum s = false -> strip s <> [] ->
    (length s <= 1000)%nat ->
    validate (Some s) = Err NoAlphanumericContent.
Proof.
  intros s A N L. unfold validate.
  destruct (length s <? 1)%nat eqn:E1.
  - apply Nat.ltb_lt in E1. destruct s; [|simpl in E1; lia].
    exfalso. apply N. reflexivity.
  - destruct (1000 <? length s)%nat eqn:E2; [apply Nat.ltb_lt in E2; lia|].
    unfold validate_message. pose proof (strip_no_alnum s A) as A'.
    destruct (strip s) as [|c r]; [exfalso; apply N; reflexivity|].
    rewrite A'. reflexivity.
Qed.

(** C5: an accepted string is returned with its leading and trailing
    whitespace removed (it lies between two runs of whitespace of the
    input and has none at its own ends), and validating the returned
    message returns it unchanged. *)
Theorem C5_trimmed_idempotent :
  forall s v, validate (Some s) = Ok v ->
    v = strip s /\
    (exists pre post, s = pre ++ v ++ post /\
       forallb isspace pre = true /\ forallb isspace post = true) /\
    (forall c r, v = c :: r -> isspace c = false) /\
    (forall c r, v = r ++ [c] -> isspace c = false) /\
    validate (Some v) = Ok v.
Proof.
  intros s v H.
  destruct (validate_Ok _ _ H) as [s' [E [[L1 L2] V]]]. injection E as <-.
  destruct (validate_message_Ok _ _ V) as [-> [N A]].
  split; [reflexivity|]. split; [apply strip_split|].
  split; [apply strip_first|]. split; [apply strip_last|].
  pose proof (strip_length s) as SL.
  unfold validate.
  destruct (length (strip s) <? 1)%nat eqn:E1.
  - apply Nat.ltb_lt in E1. destruct (strip s); [congruence | simpl in E1; lia].
  - destruct (1000 <? length (strip s))%nat eqn:E2; [apply Nat.ltb_lt in E2; lia|].
    unfold validate_message. rewrite strip_idempotent.
    destruct (strip s) as [|c r]; [congruence|]. rewrite A. reflexivity.
Qed.
End StripUnicode.

(** ** Rounding and the delay as a rational *)

Lemma round_half_even_floor : forall x, Qfloor x <= round_half_even x.
Proof.
  intros x. unfold round_half_even.
  destruct (x - inject_Z (Qfloor x) ?= 1 # 2)%Q; [destruct (Z.even (Qfloor x))| |]; lia.
Qed.

Lemma round3_positive : forall x, (1 # 2 <= x)%Q -> (0 < round3 x)%Q.
Proof.
  intros x H. unfold round3.
  assert (F : 500 <= Qfloor (x * 1000)).
  { rewrite <- (Qfloor_Z 500). apply Qfloor_resp_le.
    change (inject_Z 500) with 500%Q. lra. }
  pose proof (round_half_even_floor (x * 1000)) as R.
  unfold Qlt. simpl. lia.
Qed.

Lemma delay_at_least_half :
  forall k, 0 <= k < 2 ^ 53 ->
    (1 # 2 <= Float64.to_Q (Float64.add Float64.half (Float64.of_bits53 k)))%Q.
Proof.
  intros k H. rewrite Float64Facts.add_half_of_bits53 by exact H.
  destruct (Z.ltb_spec k (2 ^ 52)) as [L|L].
  - unfold Float64.to_Q, cond_Zopp, Qle. cbn [Qnum Qden].
    rewrite Z2Pos.id by lia. change (Zpos (2 ^ 53)) with (2 ^ 53). lia.
  - pose proof (Float64Facts.rne_half_bounds (2 ^ 52 + k)) as B.
    unfold Float64.to_Q, cond_Zopp, Qle. cbn [Qnum Qden].
    rewrite Z2Pos.id by lia. change (Zpos (2 ^ 52)) with (2 ^ 52). lia.
Qed.

Lemma delay_in_closed_interval :
  forall k, 0 <= k < 2 ^ 53 ->
    let d := Float64.add Float64.half (Float64.of_bits53 k) in
    Float64.leb Float64.half d = true /\
    Float64.leb d Float64.one_and_half = true.
Proof.
  intros k H d. subst d. rewrite Float64Facts.add_half_of_bits53 by exact H.
  rewrite Float64Facts.half_eq, Float64Facts.one_and_half_eq.
  unfold Float64.leb, SFleb, SFcompare.
  destruct (Z.ltb_spec k (2 ^ 52)) as [L|L].
  - split; [|reflexivity].
    change (-53 ?= -53) with Eq. cbv beta iota.
    rewrite Pos.compare_cont_spec. unfold Pos.switch_Eq.
    destruct (Pos.compare_spec 4503599627370496 (Z.to_pos (2 ^ 52 + k))) as [E|E|E];
      try reflexivity.
    apply Pos2Z.pos_lt_pos in E. rewrite Z2Pos.id in E by lia.
    change (Zpos 4503599627370496) with (2 ^ 52) in E. lia.
  - pose proof (Float64Facts.rne_half_bounds (2 ^ 52 + k)) as B.
    split; [reflexivity|].
    change (-52 ?= -52) with Eq. cbv beta iota.
    rewrite Pos.compare_cont_spec. unfold Pos.switch_Eq.
    destruct (Pos.compare_spec (Z.to_pos (Float64Facts.rne_half (2 ^ 52 + k)))
                6755399441055744) as [E|E|E]; try reflexivity.
    apply Pos2Z.pos_lt_pos in E. rewrite Z2Pos.id in E by lia.
    change (Zpos 6755399441055744) with (3 * 2 ^ 51) in E. lia.
Qed.

(** ** The endpoint *)

Section ChatFacts.
Context {U : Unicode} {G C : Type} {RS : RandomSource G} {CK : Clock C}.

(** What a run of [chat] from the world [w] draws and reads. *)
Definition drawn_bits (w : World G C) : Z := fst (genrand_res53 (rng w)).

Definition drawn_index (w : World G C) : nat :=
  fst (randbelow (length BOT_RESPONSES) (snd (genrand_res53 (rng w)))).

Definition drawn_reply (w : World G C) : str := nth (drawn_index w) BOT_RESPONSES [].

Definition delay_of (w : World G C) : Float64.float :=
  Float64.add Float64.half (Float64.of_bits53 (drawn_bits w)).

Definition start_time_of (w : World G C) : Q := fst (time_time (clock w)).

Definition end_time_of (w : World G C) : Q :=
  fst (time_time (sleep (Float64.to_Q (delay_of w)) (snd (time_time (clock w))))).

Definition reply_of (request : ChatRequest) (w : World G C) : str :=
  contextual_reply (message request) (lower (message request)) (drawn_reply w).

Lemma chat_response :
  forall request w,
    let c := snd (time_time (sleep (Float64.to_Q (delay_of w)) (snd (time_time (clock w))))) in
    fst (chat request w)
    = {| reply := reply_of request w;
         timestamp := fst (utcnow_isoformat c) ++ lit "Z";
         message_length := Some (length (message request));
         processing_time := Some (round3 (end_time_of w - start_time_of w)) |}.
Proof.
  intros request w.
  unfold reply_of, drawn_reply, drawn_index, end_time_of, start_time_of, delay_of, drawn_bits.
  unfold chat, bind, now, logger_info, emit, random_random, asyncio_sleep,
    random_choice, utcnow, ret.
  destruct (time_time (clock w)) as [t0 c1]. cbn [rng clock trace fst snd].
  destruct (genrand_res53 (rng w)) as [k g1]. cbn [rng clock trace fst snd].
  destruct (randbelow (length BOT_RESPONSES) g1) as [i g2]. cbn [rng clock trace fst snd].
  destruct (time_time _) as [t1 c2]. cbn [rng clock trace fst snd].
  destruct (utcnow_isoformat c2) as [stamp c3]. reflexivity.
Qed.

Lemma chat_world :
  forall request w,
    let c := snd (time_time (sleep (Float64.to_Q (delay_of w)) (snd (time_time (clock w))))) in
    snd (chat request w)
    = {| rng := snd (randbelow (length BOT_RESPONSES) (snd (genrand_res53 (rng w))));
         clock := snd (utcnow_isoformat c);
         trace := trace w ++
                  [LogReceived (message request) (user_id request);
                   Slept (delay_of w);
                   LogSent (firstn 50 (reply_of request w))
                           (end_time_of w - start_time_of w)] |}.
Proof.
  intros request w.
  unfold reply_of, drawn_reply, drawn_index, end_time_of, start_time_of, delay_of, drawn_bits.
  unfold chat, bind, now, logger_info, emit, random_random, asyncio_sleep,
    random_choice, utcnow, ret.
  destruct (time_time (clock w)) as [t0 c1]. cbn [rng clock trace fst snd].
  destruct (genrand_res53 (rng w)) as [k g1]. cbn [rng clock trace fst snd].
  destruct (randbelow (length BOT_RESPONSES) g1) as [i g2]. cbn [rng clock trace fst snd].
  destruct (time_time _) as [t1 c2]. cbn [rng clock trace fst snd].
  destruct (utcnow_isoformat c2) as [stamp c3]. cbn [rng clock trace fst snd].
  rewrite <- !app_assoc. reflexivity.
Qed.

Lemma chat_reply : forall request w, reply (fst (chat request w)) = reply_of request w.
Proof. intros request w. rewrite chat_response. reflexivity. Qed.

Lemma drawn_reply_In : forall w, In (drawn_reply w) BOT_RESPONSES.
Proof.
  intros w. unfold drawn_reply. apply nth_In.
  apply randbelow_range. simpl. lia.
Qed.

Lemma BOT_RESPONSES_nonempty : forall r, In r BOT_RESPONSES -> r <> [].
Proof.
  intros r H. simpl in H.
  repeat (destruct H as [<-|H]; [discriminate|]). destruct H.
Qed.

Lemma question_reply_nonempty : forall m, question_reply m <> [].
Proof. intros m. discriminate. Qed.

(** C1: the reply is chosen by the first rule that matches, in the order
    greeting ("olá" or "oi" in the lower-cased message), well-being
    ("como vai"), farewell ("tchau" or "adeus"), help ("ajuda"), question
    ("?" in the message as received, which is interpolated in the reply),
    and otherwise it is the entry of the pool that was drawn. *)
Theorem C1_reply_ladder :
  forall request w,
    let m := message request in
    let ml := lower m in
    let r := reply (fst (chat request w)) in
    let greeting := contains (lit "olá") ml || contains (lit "oi") ml in
    let wellbeing := contains (lit "como vai") ml in
    let farewell := contains (lit "tchau") ml || contains (lit "adeus") ml in
    let help := contains (lit "ajuda") ml in
    let question := contains (lit "?") m in
    (greeting = true -> r = REPLY_GREETING) /\
    (greeting = false -> wellbeing = true -> r = REPLY_WELLBEING) /\
    (greeting = false -> wellbeing = false -> farewell = true ->
     r = REPLY_FAREWELL) /\
    (greeting = false -> wellbeing = false -> farewell = false ->
     help = true -> r = REPLY_HELP) /\
    (greeting = false -> wellbeing = false -> farewell = false ->
     help = false -> question = true -> r = question_reply m) /\
    (greeting = false -> wellbeing = false -> farewell = false ->
     help = false -> question = false ->
     r = drawn_reply w /\ In r BOT_RESPONSES).
Proof.
  intros request w m ml r greeting wellbeing farewell help question.
  subst r. rewrite chat_reply. unfold reply_of, contextual_reply.
  fold m. fold ml. fold greeting. fold wellbeing. fold farewell. fold help.
  fold question.
  repeat split; intros; 
    repeat match goal with H : _ = _ |- _ => rewrite H; clear H end;
    try reflexivity.
  apply drawn_reply_In.
Qed.

(** C6: the response to an accepted request carries the number of
    characters of the validated (trimmed) message, a positive processing
    time that is a whole number of thousandths, a non-empty reply, and a
    timestamp that ends in "Z". *)
Theorem C6_response_metadata :
  forall raw uid request w,
    ChatRequest_validate (Some raw) uid = Ok request ->
    let r := fst (chat request w) in
    message_length r = Some (length (strip raw)) /\
    (exists t n, processing_time r = Some t /\ (0 < t)%Q /\ t = Qmake n 1000) /\
    reply r <> [] /\
    endswith (lit "Z") (timestamp r) = true.
Proof.
  intros raw uid request w V r. subst r. rewrite chat_response.
  cbn [message_length processing_time reply timestamp].
  unfold ChatRequest_validate in V.
  destruct (validate (Some raw)) as [v|e] eqn:E; [|discriminate].
  injection V as <-. cbn [message].
  destruct (validate_Ok _ _ E) as [s [S [_ VM]]]. injection S as <-.
  destruct (validate_message_Ok _ _ VM) as [-> _].
  split; [reflexivity|]. split; [|split].
  - exists (round3 (end_time_of w - start_time_of w)),
           (round_half_even ((end_time_of w - start_time_of w) * 1000)).
    split; [reflexivity|]. split; [|reflexivity].
    apply round3_positive.
    pose proof (sleep_elapses (Float64.to_Q (delay_of w)) (clock w)) as SE.
    pose proof (delay_at_least_half (drawn_bits w) (genrand_res53_range (rng w))) as D.
    fold (delay_of w) in D. unfold end_time_of, start_time_of. lra.
  - unfold reply_of, contextual_reply.
    repeat match goal with |- context [if ?b then _ else _] => destruct b end;
      try discriminate.
    apply BOT_RESPONSES_nonempty, drawn_reply_In.
  - unfold endswith. rewrite rev_app_distr. reflexivity.
Qed.

(** C7, as the code has it: the delay slept is [0.5 + u] in binary64 for
    the draw [u = k / 2**53] of [random.random()], and lies in the closed
    interval from 0.5 to 1.5. *)
Theorem C7_delay_closed_interval :
  forall request w,
    let k := drawn_bits w in
    let d := Float64.add Float64.half (Float64.of_bits53 k) in
    0 <= k < 2 ^ 53 /\
    (exists received sent,
       trace (snd (chat request w)) = trace w ++ [received; Slept d; sent]) /\
    Float64.leb Float64.half d = true /\
    Float64.leb d Float64.one_and_half = true.
Proof.
  intros request w k d.
  pose proof (genrand_res53_range (rng w)) as R. fold (drawn_bits w) in R. fold k in R.
  split; [exact R|]. split.
  - rewrite chat_world. cbn [trace]. eexists. eexists. reflexivity.
  - apply delay_in_closed_interval. exact R.
Qed.

(** C8: the response does not depend on [user_id]: from the same world,
    two requests with the same message give the same response (reply,
    timestamp, message length, processing time), leave the generator and the
    clock in the same state, and sleep the same delay; only the record
    logged on reception differs. *)
Theorem C8_user_id_irrelevant :
  forall m uid1 uid2 w,
    let run1 := chat {| message := m; user_id := uid1 |} w in
    let run2 := chat {| message := m; user_id := uid2 |} w in
    fst run1 = fst run2 /\
    rng (snd run1) = rng (snd run2) /\
    clock (snd run1) = clock (snd run2) /\
    exists slept sent,
      trace (snd run1) = trace w ++ [LogReceived m uid1; slept; sent] /\
      trace (snd run2) = trace w ++ [LogReceived m uid2; slept; sent].
Proof.
  intros m uid1 uid2 w run1 run2. subst run1 run2.
  rewrite !chat_response, !chat_world. cbn [rng clock trace message user_id].
  unfold reply_of. cbn [message].
  repeat split. eexists. eexists. split; reflexivity.
Qed.
End ChatFacts.

(** The test of the five rules of the chain, on the message. *)
Definition matches_rule {U : Unicode} (m : str) : bool :=
  let ml := lower m in
  contains (lit "olá") ml || contains (lit "oi") ml ||
  contains (lit "como vai") ml ||
  contains (lit "tchau") ml || contains (lit "adeus") ml ||
  contains (lit "ajuda") ml ||
  contains (lit "?") m.

Lemma reply_of_matching :
  forall {U : Unicode} {G C : Type} {RS : RandomSource G} {CK : Clock C}
         request (w : World G C) fallback,
    matches_rule (message request) = true ->
    reply_of request w
    = contextual_reply (message request) (lower (message request)) fallback.
Proof.
  intros U G C RS CK request w fallback. unfold matches_rule, reply_of, contextual_reply.
  destruct (contains (lit "olá") _), (contains (lit "oi") _),
    (contains (lit "como vai") _), (contains (lit "tchau") _),
    (contains (lit "adeus") _), (contains (lit "ajuda") _),
    (contains (lit "?") _); simpl; intros H; try reflexivity; discriminate.
Qed.

Lemma reply_of_fallback :
  forall {U : Unicode} {G C : Type} {RS : RandomSource G} {CK : Clock C}
         request (w : World G C),
    matches_rule (message request) = false ->
    reply_of request w = drawn_reply w.
Proof.
  intros U G C RS CK request w. unfold matches_rule, reply_of, contextual_reply.
  destruct (contains (lit "olá") _), (contains (lit "oi") _),
    (contains (lit "como vai") _), (contains (lit "tchau") _),
    (contains (lit "adeus") _), (contains (lit "ajuda") _),
    (contains (lit "?") _); simpl; intros H; try reflexivity; discriminate.
Qed.

(** C9: when the message matches one of the five rules, the reply is the
    same under any two random sources, clocks and worlds; when it matches
    none, the reply is the entry of the pool drawn by the run. *)
Theorem C9_contextual_deterministic :
  forall {U : Unicode} {G1 C1 G2 C2 : Type}
         {RS1 : RandomSource G1} {CK1 : Clock C1}
         {RS2 : RandomSource G2} {CK2 : Clock C2}
         request (w1 : World G1 C1) (w2 : World G2 C2),
    (matches_rule (message request) = true ->
     reply (fst (chat request w1)) = reply (fst (chat request w2))) /\
    (matches_rule (message request) = false ->
     reply (fst (chat request w1)) = drawn_reply w1 /\
     reply (fst (chat request w2)) = drawn_reply w2).
Proof.
  intros U G1 C1 G2 C2 RS1 CK1 RS2 CK2 request w1 w2. rewrite !chat_reply. split.
  - intros H. rewrite (reply_of_matching request w1 [] H).
    rewrite (reply_of_matching request w2 [] H). reflexivity.
  - intros H. split; apply reply_of_fallback; exact H.
Qed.

(** C10: the reply is never empty and is one of the 8 strings of the pool,
    one of the 4 fixed contextual replies, or the question template filled
    with the message. *)
Theorem C10_reply_set :
  forall {U : Unicode} {G C : Type} {RS : RandomSource G} {CK : Clock C}
         request (w : World G C),
    let r := reply (fst (chat request w)) in
    r <> [] /\
    (In r BOT_RESPONSES \/
     In r [REPLY_GREETING; REPLY_WELLBEING; REPLY_FAREWELL; REPLY_HELP] \/
     r = question_reply (message request)) /\
    length BOT_RESPONSES = 8%nat.
Proof.
  intros U G C RS CK request w r. subst r. rewrite chat_reply.
  pose proof (drawn_reply_In w) as D.
  pose proof (BOT_RESPONSES_nonempty _ D) as N.
  unfold reply_of, contextual_reply.
  destruct (contains (lit "olá") _ || contains (lit "oi") _).
  { split; [discriminate|]. split; [|reflexivity].
    right. left. left. reflexivity. }
  destruct (contains (lit "como vai") _).
  { split; [discriminate|]. split; [|reflexivity].
    right. left. right. left. reflexivity. }
  destruct (contains (lit "tchau") _ || contains (lit "adeus") _).
  { split; [discriminate|]. split; [|reflexivity].
    right. left. right. right. left. reflexivity. }
  destruct (contains (lit "ajuda") _).
  { split; [discriminate|]. split; [|reflexivity].
    right. left. right. right. right. left. reflexivity. }
  destruct (contains (lit "?") _).
  { split; [apply question_reply_nonempty|]. split; [|reflexivity].
    right. right. reflexivity. }
  split; [exact N|]. split; [|reflexivity]. left. exact D.
Qed.

(** ** Runs on the simulated interpreter *)

(** The failure at the largest draw: [0.5 + (1 - 2**-53)] is a tie between
    the two neighbouring floats and rounds to the even one, [1.5]. *)
Example largest_draw_rounds_up :
  Float64.add Float64.half (Float64.of_bits53 (2 ^ 53 - 1)) = Float64.one_and_half.
Proof. vm_compute. reflexivity. Qed.

Example smallest_draw :
  Float64.add Float64.half (Float64.of_bits53 0) = Float64.half.
Proof. vm_compute. reflexivity. Qed.

Lemma C1_witness :
  reply (fst (sim_chat {| message := lit "Oi, tchau?"; user_id := None |} 42))
  = REPLY_GREETING.
Proof.
  apply (proj1 (@C1_reply_ladder latin1 Z Q Lcg SimClock
                  {| message := lit "Oi, tchau?"; user_id := None |} (sim_world 42))).
  vm_compute. reflexivity.
Defined.

Lemma C2_witness : @validate latin1 (Some (repeat 97 1001)) = Err TooLong.
Proof.
  apply (@C2_too_long latin1 (repeat 97 1001)).
  rewrite repeat_length. lia.
Defined.

Lemma C3_witness : @validate latin1 (Some (lit "    ")) = Err EmptyMessage.
Proof.
  apply (proj1 (@C3_whitespace_only latin1 (lit "    ") eq_refl)).
  vm_compute. lia.
Defined.

(** 1001 spaces: whitespace only, and rejected as too long, not as empty. *)
Lemma C3_counterexample :
  forallb (@isspace latin1) (repeat 32 1001) = true /\
  @validate latin1 (Some (repeat 32 1001)) = Err TooLong /\
  @validate latin1 (Some (repeat 32 1001)) <> Err EmptyMessage.
Proof.
  split; [vm_compute; reflexivity|].
  assert (E : @validate latin1 (Some (repeat 32 1001)) = Err TooLong)
    by (vm_compute; reflexivity).
  split; [exact E|]. rewrite E. discriminate.
Qed.

Lemma C4_witness :
  @validate latin1 (Some (lit "!!!!???")) = Err NoAlphanumericContent.
Proof.
  apply (@C4_no_alphanumeric latin1 (lit "!!!!???")).
  - vm_compute. reflexivity.
  - vm_compute. discriminate.
  - vm_compute. lia.
Defined.

(** 1001 exclamation marks: no alphanumeric character, not empty after
    trimming, and rejected as too long. *)
Lemma C4_counterexample :
  @any_isalnum latin1 (repeat 33 1001) = false /\
  @strip latin1 (repeat 33 1001) <> [] /\
  @validate latin1 (Some (repeat 33 1001)) = Err TooLong /\
  @validate latin1 (Some (repeat 33 1001)) <> Err NoAlphanumericContent.
Proof.
  split; [vm_compute; reflexivity|].
  split; [vm_compute; discriminate|].
  assert (E : @validate latin1 (Some (repeat 33 1001)) = Err TooLong)
    by (vm_compute; reflexivity).
  split; [exact E|]. rewrite E. discriminate.
Qed.

Lemma C5_witness :
  lit "Olá" = @strip latin1 (lit "  Olá  ") /\
  @validate latin1 (Some (lit "Olá")) = Ok (lit "Olá").
Proof.
  pose proof (@C5_trimmed_idempotent latin1 (lit "  Olá  ") (lit "Olá") eq_refl) as H.
  split; [exact (proj1 H) | exact (proj2 (proj2 (proj2 (proj2 H))))].
Defined.

Lemma C6_witness :
  message_length (fst (sim_chat {| message := lit "Teste"; user_id := None |} 42))
  = Some 5%nat.
Proof.
  exact (proj1 (@C6_response_metadata latin1 Z Q Lcg SimClock
                  (lit "  Teste ") None
                  {| message := lit "Teste"; user_id := None |}
                  (sim_world 42) eq_refl)).
Defined.

(** The generator state [2**53 - 1] draws the largest [k]; the delay slept
    is then exactly 1.5, which is not below 1.5. *)
Lemma C7_counterexample :
  @drawn_bits Z Q Lcg (sim_world (2 ^ 53 - 1)) = 2 ^ 53 - 1 /\
  In (Slept Float64.one_and_half)
     (trace (snd (sim_chat {| message := lit "Teste"; user_id := None |} (2 ^ 53 - 1)))) /\
  Float64.ltb Float64.one_and_half Float64.one_and_half = false.
Proof.
  split; [vm_compute; reflexivity|].
  split; [|vm_compute; reflexivity].
  vm_compute. right. left. reflexivity.
Qed.

Lemma C9_witness :
  reply (fst (sim_chat {| message := lit "Qual é o seu nome?"; user_id := None |} 42))
  = reply (fst (sim_chat {| message := lit "Qual é o seu nome?"; user_id := None |} 43)).
Proof.
  apply (proj1 (@C9_contextual_deterministic latin1 Z Q Z Q Lcg SimClock Lcg SimClock
                  {| message := lit "Qual é o seu nome?"; user_id := None |}
                  (sim_world 42) (sim_world 43))).
  vm_compute. reflexivity.
Defined.

(** The fallback reply does depend on the draw. *)
Example fallback_depends_on_draw :
  reply (fst (sim_chat {| message := lit "Teste"; user_id := None |} 42))
  = lit "Entendo o que você está dizendo." /\
  reply (fst (sim_chat {| message := lit "Teste"; user_id := None |} 43))
  = lit "Isso me lembra de algo importante.".
Proof. split; vm_compute; reflexivity. Qed.

(** Literals and substring tests. *)
Example lit_ola : lit "olá" = [111; 108; 225].
Proof. reflexivity. Qed.

Example lit_emoji : lit "😊" = [128522].
Proof. reflexivity. Qed.

Example contains_oi : contains (lit "oi") (lit "boa noite") = true.
Proof. reflexivity. Qed.

(** The inputs of [test_validation.py]. *)
Example test_modelo_com_espacos :
  @validate latin1 (Some (lit "  Olá  ")) = Ok (lit "Olá").
Proof. reflexivity. Qed.

Example test_modelo_mensagem_vazia :
  @validate latin1 (Some (lit "")) = Err string_too_short.
Proof. reflexivity. Qed.

Example test_modelo_apenas_espacos :
  @validate latin1 (Some (lit "   ")) = Err EmptyMessage.
Proof. reflexivity. Qed.

Example test_modelo_apenas_pontuacao :
  @validate latin1 (Some (lit "!!!!!")) = Err NoAlphanumericContent.
Proof. reflexivity. Qed.

Example test_mensagem_sem_campo :
  @validate latin1 None = Err MissingField.
Proof. reflexivity. Qed.

Example test_mensagem_com_emojis :
  @validate latin1 (Some (lit "Olá! 😊🎉")) = Ok (lit "Olá! 😊🎉").
Proof. vm_compute. reflexivity. Qed.

Example test_resposta_ola :
  reply (fst (sim_chat {| message := lit "Olá!"; user_id := None |} 7))
  = lit "Olá! Como posso ajudar você hoje? 😊".
Proof. vm_compute. reflexivity. Qed.

Example test_resposta_como_vai :
  reply (fst (sim_chat {| message := lit "Como vai você?"; user_id := None |} 7))
  = lit "Estou muito bem, obrigado por perguntar! E você, como está?".
Proof. vm_compute. reflexivity. Qed.

Example test_resposta_tchau :
  reply (fst (sim_chat {| message := lit "Tchau!"; user_id := None |} 7))
  = lit "Até logo! Foi um prazer conversar com você! 👋".
Proof. vm_compute. reflexivity. Qed.

Example test_resposta_ajuda :
  reply (fst (sim_chat {| message := lit "Preciso de ajuda"; user_id := None |} 7))
  = lit "Claro! Estou aqui para ajudar. O que você precisa?".
Proof. vm_compute. reflexivity. Qed.

Example test_resposta_pergunta :
  reply (fst (sim_chat {| message := lit "Qual é o seu nome?"; user_id := None |} 7))
  = question_reply (lit "Qual é o seu nome?").
Proof. vm_compute. reflexivity. Qed.

(** The order of the rules decides, not how specific a match is: "noite"
    contains "oi". *)
Example greeting_wins_over_help :
  reply (fst (sim_chat {| message := lit "Boa noite, preciso de ajuda";
                          user_id := None |} 7))
  = REPLY_GREETING.
Proof. vm_compute. reflexivity. Qed.

Example test_resposta_contem_metadata :
  fst (sim_post (Some (lit "Teste")) None 42)
  = Ok {| reply := lit "Entendo o que você está dizendo.";
          timestamp := lit "2025-10-24T10:30:00.000000Z";
          message_length := Some 5%nat;
          processing_time := Some (Qmake 500 1000) |}.
Proof. vm_compute. reflexivity. Qed.

(** * Further properties *)

(** ** The validator's decision table *)

Lemma EmptyMessage_not_NoAlphanumericContent :
  EmptyMessage <> NoAlphanumericContent.
Proof. vm_compute. discriminate. Qed.

Lemma value_error_not_length :
  forall msg,
    value_error msg <> string_too_short /\ value_error msg <> string_too_long.
Proof. intros msg. split; discriminate. Qed.

Lemma strip_nil_whitespace :
  forall {U : Unicode} s, strip s = [] -> forallb isspace s = true.
Proof.
  intros U s H. destruct (strip_split s) as [pre [post [E [A B]]]].
  rewrite H in E. rewrite E, forallb_app, A. exact B.
Qed.

Lemma validate_in_range :
  forall {U : Unicode} (s : str), (1 <= length s <= 1000)%nat ->
    validate (Some s) = validate_message s.
Proof.
  intros U s [L1 L2]. unfold validate.
  destruct (length s <? 1)%nat eqn:E1; [apply Nat.ltb_lt in E1; lia|].
  destruct (1000 <? length s)%nat eqn:E2; [apply Nat.ltb_lt in E2; lia|].
  reflexivity.
Qed.

Lemma validate_range_cases :
  forall {U : Unicode} (s : str),
    (s = [] /\ validate (Some s) = Err string_too_short) \/
    ((length s > 1000)%nat /\ validate (Some s) = Err string_too_long) \/
    ((1 <= length s <= 1000)%nat /\ validate (Some s) = validate_message s).
Proof.
  intros U s. destruct s as [|c r] eqn:E.
  - left. split; reflexivity.
  - rewrite <- E. assert (1 <= length s)%nat by (subst s; simpl; lia).
    destruct (Nat.le_gt_cases (length s) 1000) as [L|L].
    + right. right. split; [lia | apply validate_in_range; lia].
    + right. left. split; [lia | apply validate_max_length; lia].
Qed.

Lemma validate_Ok_bounds :
  forall {U : Unicode} s v, validate (Some s) = Ok v ->
    (1 <= length v <= length s)%nat /\ (length s <= 1000)%nat /\
    any_isalnum v = true.
Proof.
  intros U s v H.
  destruct (validate_Ok _ _ H) as [s' [E [[L1 L2] V]]]. injection E as <-.
  destruct (validate_message_Ok _ _ V) as [-> [N A]].
  pose proof (strip_length s) as SL.
  repeat split; try lia; [|exact A].
  destruct (strip s); [congruence | simpl; lia].
Qed.

(** X1: an accepted message has between 1 and 1000 characters, is no
    longer than the input and contains an alphanumeric character. *)
Theorem accepted_message_invariant :
  forall {U : Unicode} s v, validate (Some s) = Ok v ->
    (1 <= length v <= length s)%nat /\ (length s <= 1000)%nat /\
    any_isalnum v = true.
Proof. intros U s v H. apply validate_Ok_bounds. exact H. Qed.

Section Disjoint.
Context {U : Unicode}.

(** No character is both alphanumeric and whitespace. *)
Hypothesis alnum_not_space : forall c, isalnum c = true -> isspace c = false.

Lemma whitespace_no_alnum :
  forall s, forallb isspace s = true -> any_isalnum s = false.
Proof.
  unfold any_isalnum. induction s as [|c s IH]; simpl; intros H; [reflexivity|].
  apply andb_true_iff in H as [Hc Hs]. rewrite (IH Hs), orb_false_r.
  destruct (isalnum c) eqn:A; [|reflexivity].
  rewrite (alnum_not_space c A) in Hc. discriminate.
Qed.

Lemma strip_any_isalnum : forall s, any_isalnum (strip s) = any_isalnum s.
Proof.
  intros s. destruct (strip_split s) as [pre [post [E [A B]]]].
  rewrite E at 2. unfold any_isalnum. rewrite !existsb_app.
  fold (any_isalnum pre). fold (any_isalnum post).
  rewrite (whitespace_no_alnum pre A), (whitespace_no_alnum post B), orb_false_r.
  reflexivity.
Qed.

Lemma validate_message_decision :
  forall s,
    validate_message s =
    if forallb isspace s then Err EmptyMessage
    else if any_isalnum s then Ok (strip s)
    else Err NoAlphanumericContent.
Proof.
  intros s. unfold validate_message.
  destruct (forallb isspace s) eqn:W.
  - rewrite (strip_whitespace s W). reflexivity.
  - rewrite <- (strip_any_isalnum s).
    destruct (strip s) as [|c r] eqn:E.
    + apply strip_nil_whitespace in E. congruence.
    + destruct (any_isalnum (c :: r)); reflexivity.
Qed.

(** X2: a string is accepted exactly when it has 1 to 1000 characters and
    contains an alphanumeric character; the accepted message is the input
    stripped. *)
Theorem acceptance_criterion :
  forall s v,
    validate (Some s) = Ok v <->
    (1 <= length s <= 1000)%nat /\ any_isalnum s = true /\ v = strip s.
Proof.
  intros s v. split.
  - intros H. destruct (validate_Ok _ _ H) as [s' [E [L V]]]. injection E as <-.
    destruct (validate_message_Ok _ _ V) as [-> [_ A]].
    rewrite strip_any_isalnum in A. auto.
  - intros [L [A ->]]. rewrite (validate_in_range s L), validate_message_decision, A.
    destruct (forallb isspace s) eqn:W; [|reflexivity].
    rewrite (whitespace_no_alnum s W) in A. discriminate.
Qed.

Lemma rejection_table_of :
  forall (e1 e2 : ValidationError) (s : str),
    e1 <> e2 ->
    e1 <> string_too_short -> e1 <> string_too_long ->
    e2 <> string_too_short -> e2 <> string_too_long ->
    validate_message s
    = (if forallb isspace s then Err e1
       else if any_isalnum s then Ok (strip s) else Err e2) ->
    (validate (Some s) = Err string_too_short <-> s = []) /\
    (validate (Some s) = Err string_too_long <-> (length s > 1000)%nat) /\
    (validate (Some s) = Err e1 <->
     (1 <= length s <= 1000)%nat /\ forallb isspace s = true) /\
    (validate (Some s) = Err e2 <->
     (1 <= length s <= 1000)%nat /\ forallb isspace s = false /\
     any_isalnum s = false).
Proof.
  intros e1 e2 s N12 N1 N2 N3 N4 D.
  assert (LN : s = [] <-> length s = 0%nat)
    by (split; [intros ->; reflexivity | apply length_zero_iff_nil]).
  destruct (validate_range_cases s) as [[E V]|[[L V]|[L V]]]; rewrite V.
  - apply LN in E. intuition (try congruence; try lia).
  - intuition (try congruence; try lia).
  - rewrite D.
    destruct (forallb isspace s) eqn:W; [|destruct (any_isalnum s) eqn:A];
      intuition (try congruence; try lia).
Qed.

(** X3: which rejection a string gets: [string_too_short] exactly for the
    empty string, [TooLong] exactly above 1000 characters, [EmptyMessage]
    exactly for whitespace-only strings of 1 to 1000 characters, and
    [NoAlphanumericContent] exactly for strings of 1 to 1000 characters
    that are not whitespace-only and have no alphanumeric character. *)
Theorem rejection_table :
  forall s,
    (validate (Some s) = Err string_too_short <-> s = []) /\
    (validate (Some s) = Err TooLong <-> (length s > 1000)%nat) /\
    (validate (Some s) = Err EmptyMessage <->
     (1 <= length s <= 1000)%nat /\ forallb isspace s = true) /\
    (validate (Some s) = Err NoAlphanumericContent <->
     (1 <= length s <= 1000)%nat /\ forallb isspace s = false /\
     any_isalnum s = false).
Proof.
  intros s.
  apply (rejection_table_of EmptyMessage NoAlphanumericContent s).
  - exact EmptyMessage_not_NoAlphanumericContent.
  - apply (proj1 (value_error_not_length msg_empty)).
  - apply (proj2 (value_error_not_length msg_empty)).
  - apply (proj1 (value_error_not_length msg_no_alnum)).
  - apply (proj2 (value_error_not_length msg_no_alnum)).
  - apply validate_message_decision.
Qed.
End Disjoint.

Lemma latin1_alnum_not_space :
  forall c, @isalnum latin1 c = true -> @isspace latin1 c = false.
Proof.
  intros c H. destruct (@isspace latin1 c) eqn:E; [|reflexivity]. exfalso.
  simpl in H, E. unfold latin1_isalnum in H. unfold latin1_isspace in E.
  repeat rewrite ?orb_true_iff, ?andb_true_iff, ?Z.leb_le, ?Z.eqb_eq in H.
  repeat rewrite ?orb_true_iff, ?andb_true_iff, ?Z.leb_le, ?Z.eqb_eq in E.
  lia.
Qed.

Lemma accepted_message_invariant_witness :
  (1 <= length (lit "Olá") <= length (lit "  Olá  "))%nat /\
  (length (lit "  Olá  ") <= 1000)%nat /\
  @any_isalnum latin1 (lit "Olá") = true.
Proof.
  apply (@accepted_message_invariant latin1 (lit "  Olá  ") (lit "Olá")).
  vm_compute. reflexivity.
Defined.

Lemma acceptance_criterion_witness :
  @validate latin1 (Some (lit " Tenho 25 anos ")) = Ok (lit "Tenho 25 anos").
Proof.
  apply (proj2 (@acceptance_criterion latin1 latin1_alnum_not_space
                  (lit " Tenho 25 anos ") (lit "Tenho 25 anos"))).
  split; [vm_compute; lia|]. split; vm_compute; reflexivity.
Defined.

Lemma rejection_table_witness :
  (1 <= length (lit "  ...  ") <= 1000)%nat /\
  forallb (@isspace latin1) (lit "  ...  ") = false /\
  @any_isalnum latin1 (lit "  ...  ") = false.
Proof.
  apply (proj1 (proj2 (proj2 (proj2
           (@rejection_table latin1 latin1_alnum_not_space (lit "  ...  ")))))).
  vm_compute. reflexivity.
Defined.

(** ** Splitting on whitespace and collapsing it *)

Section SplitFacts.
Context {U : Unicode}.

(** A word: not empty and free of whitespace. *)
Definition is_word (w : str) : bool :=
  match w with
  | [] => false
  | _ :: _ => forallb (fun c => negb (isspace c)) w
  end.

Lemma str_split_space :
  forall c s, isspace c = true -> str_split (c :: s) = str_split s.
Proof. intros c s H. simpl. rewrite H. reflexivity. Qed.

Lemma str_split_starts :
  forall c s, isspace c = false -> exists w ws, str_split (c :: s) = (c :: w) :: ws.
Proof.
  intros c s H. simpl. rewrite H. destruct s as [|d t]; [eexists; eexists; reflexivity|].
  destruct (isspace d); [eexists; eexists; reflexivity|].
  destruct (str_split (d :: t)); eexists; eexists; reflexivity.
Qed.

Lemma str_split_words : forall s, Forall (fun w => is_word w = true) (str_split s).
Proof.
  induction s as [|c s IH]; [constructor|].
  cbn [str_split]. destruct (isspace c) eqn:C; [exact IH|].
  destruct s as [|d t].
  - constructor; [simpl; rewrite C; reflexivity | constructor].
  - destruct (isspace d) eqn:D.
    + constructor; [simpl; rewrite C; reflexivity | exact IH].
    + destruct (str_split (d :: t)) as [|w ws].
      * constructor; [simpl; rewrite C; reflexivity | constructor].
      * inversion IH as [|? ? Hw Hws]; subst. constructor; [|exact Hws].
        destruct w as [|a w]; [discriminate|].
        cbn [is_word forallb] in *. rewrite C. exact Hw.
Qed.

Lemma str_join_nil :
  forall sep ws, Forall (fun w => is_word w = true) ws ->
    str_join sep ws = [] -> ws = [].
Proof.
  intros sep [|w ws] F H; [reflexivity|].
  inversion F as [|? ? Hw _]; subst.
  destruct w as [|a w]; [discriminate|]. destruct ws; discriminate.
Qed.

Lemma collapse_spaces_nil : forall s, collapse_spaces s = [] <-> str_split s = [].
Proof.
  intros s. unfold collapse_spaces. split.
  - apply str_join_nil, str_split_words.
  - intros ->. reflexivity.
Qed.

(** The four cases of [collapse_spaces] on a non-empty string. *)
Lemma collapse_space :
  forall c s, isspace c = true -> collapse_spaces (c :: s) = collapse_spaces s.
Proof. intros c s H. unfold collapse_spaces. rewrite str_split_space by exact H. reflexivity. Qed.

Lemma collapse_last :
  forall c, isspace c = false -> collapse_spaces [c] = [c].
Proof. intros c H. unfold collapse_spaces. simpl. rewrite H. reflexivity. Qed.

Lemma collapse_word_end :
  forall c d t, isspace c = false -> isspace d = true ->
    collapse_spaces (c :: d :: t)
    = c :: match collapse_spaces t with
           | [] => []
           | _ :: _ => 32 :: collapse_spaces t
           end.
Proof.
  intros c d t C D. unfold collapse_spaces at 1. cbn [str_split]. rewrite C, D.
  pose proof (collapse_spaces_nil t) as N. unfold collapse_spaces in *.
  destruct (str_split t) as [|w ws] eqn:E.
  - reflexivity.
  - destruct (str_join [32] (w :: ws)) eqn:J.
    + pose proof (proj1 N eq_refl) as K. discriminate K.
    + rewrite <- J. reflexivity.
Qed.

Lemma collapse_word_cont :
  forall c d t, isspace c = false -> isspace d = false ->
    collapse_spaces (c :: d :: t) = c :: collapse_spaces (d :: t).
Proof.
  intros c d t C D. unfold collapse_spaces. 
  destruct (str_split_starts d t D) as [w [ws E]].
  change (str_split (c :: d :: t))
    with (if isspace c then str_split (d :: t)
          else if isspace d then [c] :: str_split (d :: t)
          else match str_split (d :: t) with
               | w :: ws => (c :: w) :: ws
               | [] => [[c]]
               end).
  rewrite C, D, E. destruct ws; reflexivity.
Qed.

(** Induction along the four cases. *)
Lemma collapse_spaces_ind :
  forall P : str -> str -> Prop,
    P [] [] ->
    (forall c s, isspace c = true ->
       P s (collapse_spaces s) -> P (c :: s) (collapse_spaces s)) ->
    (forall c, isspace c = false -> P [c] [c]) ->
    (forall c d t, isspace c = false -> isspace d = true ->
       P t (collapse_spaces t) ->
       P (c :: d :: t)
         (c :: match collapse_spaces t with
               | [] => []
               | _ :: _ => 32 :: collapse_spaces t
               end)) ->
    (forall c d t, isspace c = false -> isspace d = false ->
       P (d :: t) (collapse_spaces (d :: t)) ->
       P (c :: d :: t) (c :: collapse_spaces (d :: t))) ->
    forall s, P s (collapse_spaces s).
Proof.
  intros P H0 Hs Hl He Hc.
  assert (K : forall n s, (length s <= n)%nat -> P s (collapse_spaces s)).
  { induction n as [|n IH]; intros s L.
    - destruct s; [exact H0 | simpl in L; lia].
    - destruct s as [|c s]; [exact H0|]. simpl in L.
      destruct (isspace c) eqn:C.
      + rewrite collapse_space by exact C. apply Hs; [exact C | apply IH; lia].
      + destruct s as [|d t].
        * rewrite collapse_last by exact C. apply Hl. exact C.
        * simpl in L. destruct (isspace d) eqn:D.
          -- rewrite collapse_word_end by assumption.
             apply He; [exact C | exact D | apply IH; lia].
          -- rewrite collapse_word_cont by assumption.
             apply Hc; [exact C | exact D | apply IH; simpl; lia]. }
  intros s. apply (K (length s)). lia.
Qed.

Lemma collapse_spaces_length :
  forall s, (length (collapse_spaces s) <= length s)%nat.
Proof.
  intros s. apply (collapse_spaces_ind (fun s r => (length r <= length s)%nat));
    intros; simpl in *; try lia.
  destruct (collapse_spaces t); simpl in *; lia.
Qed.

Lemma str_split_whitespace_prefix :
  forall pre s, forallb isspace pre = true -> str_split (pre ++ s) = str_split s.
Proof.
  induction pre as [|c pre IH]; intros s H; [reflexivity|].
  simpl in H. apply andb_true_iff in H as [C H].
  rewrite <- app_comm_cons, str_split_space by exact C. apply IH. exact H.
Qed.

Lemma str_split_whitespace :
  forall s, forallb isspace s = true -> str_split s = [].
Proof.
  intros s H. rewrite <- (app_nil_r s).
  apply (str_split_whitespace_prefix s [] H).
Qed.

Lemma str_split_whitespace_suffix :
  forall post s, forallb isspace post = true -> str_split (s ++ post) = str_split s.
Proof.
  intros post s H. induction s as [|c s IH].
  - apply str_split_whitespace. exact H.
  - rewrite <- app_comm_cons. cbn [str_split]. destruct (isspace c) eqn:C; [exact IH|].
    destruct s as [|d t].
    + cbn [app] in *. destruct post as [|p post]; [reflexivity|].
      pose proof H as H'. simpl in H'. apply andb_true_iff in H' as [Hp _].
      rewrite Hp, (str_split_whitespace _ H). reflexivity.
    + rewrite <- app_comm_cons in *. rewrite IH. reflexivity.
Qed.

Lemma str_split_strip : forall s, str_split (strip s) = str_split s.
Proof.
  intros s. destruct (strip_split s) as [pre [post [E [A B]]]].
  rewrite E at 2.
  rewrite str_split_whitespace_prefix, str_split_whitespace_suffix by assumption.
  reflexivity.
Qed.

(** The space is whitespace. *)
Hypothesis space_is_space : isspace 32 = true.

Lemma str_split_word_app :
  forall w t, is_word w = true -> str_split (w ++ 32 :: t) = w :: str_split t.
Proof.
  induction w as [|c w IH]; intros t H; [discriminate|].
  cbn [is_word forallb] in H. apply andb_true_iff in H as [C H].
  apply negb_true_iff in C.
  rewrite <- app_comm_cons. cbn [str_split]. rewrite C.
  destruct w as [|d w].
  - cbn [app]. rewrite space_is_space. f_equal.
    apply str_split_space. exact space_is_space.
  - rewrite <- app_comm_cons.
    assert (D : isspace d = false).
    { simpl in H. apply andb_true_iff in H as [D _]. apply negb_true_iff in D. exact D. }
    rewrite D. rewrite app_comm_cons, IH by exact H. reflexivity.
Qed.

Lemma str_split_word : forall w, is_word w = true -> str_split w = [w].
Proof.
  induction w as [|c w IH]; intros H; [discriminate|].
  cbn [is_word forallb] in H. apply andb_true_iff in H as [C H].
  apply negb_true_iff in C. cbn [str_split]. rewrite C.
  destruct w as [|d w]; [reflexivity|].
  assert (D : isspace d = false).
  { simpl in H. apply andb_true_iff in H as [D _]. apply negb_true_iff in D. exact D. }
  rewrite D, IH by exact H. reflexivity.
Qed.

(** Splitting what was joined with single spaces gives the words back. *)
Lemma str_split_join :
  forall ws, Forall (fun w => is_word w = true) ws ->
    str_split (str_join [32] ws) = ws.
Proof.
  induction ws as [|w ws IH]; intros F; [reflexivity|].
  inversion F as [|? ? Hw Hws]; subst.
  destruct ws as [|w2 ws].
  - apply str_split_word. exact Hw.
  - change (str_join [32] (w :: w2 :: ws)) with (w ++ 32 :: str_join [32] (w2 :: ws)).
    rewrite str_split_word_app by exact Hw. rewrite IH by exact Hws. reflexivity.
Qed.

Lemma str_split_collapse :
  forall v, str_split (collapse_spaces v) = str_split v.
Proof. intros v. apply str_split_join, str_split_words. Qed.

Lemma collapse_spaces_idempotent :
  forall v, collapse_spaces (collapse_spaces v) = collapse_spaces v.
Proof.
  intros v. unfold collapse_spaces at 1. rewrite str_split_collapse. reflexivity.
Qed.

Lemma collapse_spaces_whitespace :
  forall v c, In c (collapse_spaces v) -> isspace c = true -> c = 32.
Proof.
  intros v.
  apply (collapse_spaces_ind
           (fun s r => forall c, In c r -> isspace c = true -> c = 32)).
  - intros c [].
  - intros c s _ IH. exact IH.
  - intros c C a [<-|[]] A. congruence.
  - intros c d t C D IH a [<-|I] A; [congruence|].
    destruct (collapse_spaces t); [destruct I|].
    destruct I as [<-|I]; [reflexivity | apply IH; assumption].
  - intros c d t C D IH a [<-|I] A; [congruence | apply IH; assumption].
Qed.

(** X4: [' '.join(v.split())] keeps the words of [v], so applying it twice
    changes nothing more; it never lengthens the string, and the only
    whitespace left in its result is the single space. *)
Theorem collapse_spaces_normal_form :
  forall v,
    str_split (collapse_spaces v) = str_split v /\
    collapse_spaces (collapse_spaces v) = collapse_spaces v /\
    (length (collapse_spaces v) <= length v)%nat /\
    (forall c, In c (collapse_spaces v) -> isspace c = true -> c = 32).
Proof.
  intros v. split; [apply str_split_collapse|].
  split; [apply collapse_spaces_idempotent|].
  split; [apply collapse_spaces_length | apply collapse_spaces_whitespace].
Qed.

(** Characters that are never whitespace survive collapsing. *)
Lemma collapse_spaces_existsb :
  forall q : char -> bool,
    (forall c, q c = true -> isspace c = false) ->
    forall s, existsb q (collapse_spaces s) = existsb q s.
Proof.
  intros q Hq.
  assert (Q : forall c, isspace c = true -> q c = false).
  { intros c C. destruct (q c) eqn:E; [|reflexivity]. rewrite (Hq c E) in C. discriminate. }
  intros s. apply (collapse_spaces_ind (fun s r => existsb q r = existsb q s)).
  - reflexivity.
  - intros c t C IH. simpl. rewrite (Q c C). exact IH.
  - reflexivity.
  - intros c d t C D IH. cbn [existsb]. rewrite (Q d D). cbn [orb].
    destruct (collapse_spaces t) as [|a r] eqn:E.
    + rewrite <- IH. reflexivity.
    + rewrite <- IH. cbn [existsb]. rewrite (Q 32 space_is_space). reflexivity.
  - intros c d t C D IH. cbn [existsb] in *. rewrite IH. reflexivity.
Qed.
End SplitFacts.

(** ** The validators of validation_examples.py *)

Ltac settle := intuition (try discriminate; try congruence; try lia).

Lemma str_field_cases :
  forall (lo hi : nat) (after : str -> result str) (s : str),
    str_field lo hi after (Some s) =
    if (length s <? lo)%nat then Err string_too_short
    else if (hi <? length s)%nat then Err string_too_long
    else after s.
Proof. reflexivity. Qed.

Lemma str_field_in_range :
  forall (lo hi : nat) (after : str -> result str) (s : str),
    (lo <= length s <= hi)%nat -> str_field lo hi after (Some s) = after s.
Proof.
  intros lo hi after s [L1 L2]. rewrite str_field_cases.
  destruct (length s <? lo)%nat eqn:E1; [apply Nat.ltb_lt in E1; lia|].
  destruct (hi <? length s)%nat eqn:E2; [apply Nat.ltb_lt in E2; lia|].
  reflexivity.
Qed.

Lemma str_field_Ok :
  forall (lo hi : nat) (after : str -> result str) raw v,
    str_field lo hi after raw = Ok v ->
    exists s, raw = Some s /\ (lo <= length s <= hi)%nat /\ after s = Ok v.
Proof.
  intros lo hi after [s|] v; [|discriminate]. rewrite str_field_cases.
  destruct (length s <? lo)%nat eqn:E1; [discriminate|].
  destruct (hi <? length s)%nat eqn:E2; [discriminate|].
  apply Nat.ltb_ge in E1, E2. intros H. exists s. auto.
Qed.

Lemma validate_message_content_Ok :
  forall {U : Unicode} s v,
    validate_message_content s = Ok v <->
    exists c, validate_message s = Ok c /\ v = collapse_spaces c.
Proof.
  intros U s v. unfold validate_message_content, validate_message.
  destruct (strip s) as [|a r]; [split; [discriminate | intros [c [K _]]; discriminate]|].
  destruct (any_isalnum (a :: r)); cbn [negb].
  - split.
    + intros H. injection H as <-. eexists. split; reflexivity.
    + intros [c [K ->]]. injection K as <-. reflexivity.
  - split; [discriminate | intros [c [K _]]; discriminate].
Qed.

(** [has_forbidden_word m]: the test of [validate_message_manual] on the
    stripped message [m]. *)
Definition has_forbidden_word {U : Unicode} (m : str) : bool :=
  existsb (fun word => contains word (lower m)) forbidden_words.

Lemma MessageValidated_message_Ok :
  forall {U : Unicode} raw v,
    MessageValidated_message raw = Ok v <->
    exists c, validate raw = Ok c /\ v = collapse_spaces c.
Proof.
  intros U raw v. unfold MessageValidated_message. split.
  - intros H. destruct (str_field_Ok _ _ _ _ _ H) as [s [-> [L V]]].
    apply validate_message_content_Ok in V as [c [V ->]].
    exists c. split; [|reflexivity]. rewrite validate_in_range by exact L. exact V.
  - intros [c [H ->]]. destruct (validate_Ok _ _ H) as [s [-> [L V]]].
    rewrite str_field_in_range by exact L.
    apply validate_message_content_Ok. exists c. auto.
Qed.

(** X5: [MessageValidated] accepts exactly the messages [ChatRequest]
    accepts, and returns the message [ChatRequest] returns with its runs of
    whitespace collapsed. *)
Theorem MessageValidated_vs_ChatRequest :
  forall {U : Unicode} raw v,
    MessageValidated_message raw = Ok v <->
    exists c, validate raw = Ok c /\ v = collapse_spaces c.
Proof. intros U raw v. apply MessageValidated_message_Ok. Qed.

Lemma ChatRequestLogged_message_spec :
  forall {U : Unicode} (s v : str),
    (fst (ChatRequestLogged_message (Some s)) = Some (s, length s) <->
     (1 <= length s <= 1000)%nat) /\
    (fst (ChatRequestLogged_message (Some s)) = None <->
     ~ (1 <= length s <= 1000)%nat) /\
    (snd (ChatRequestLogged_message (Some s)) = Ok v <->
     (1 <= length s <= 1000)%nat /\ forallb isspace s = false /\ v = strip s).
Proof.
  intros U s v. unfold ChatRequestLogged_message, log_and_validate.
  destruct (length s <? 1)%nat eqn:E1.
  { apply Nat.ltb_lt in E1. cbn [fst snd]. settle. }
  destruct (1000 <? length s)%nat eqn:E2.
  { apply Nat.ltb_lt in E2. cbn [fst snd]. settle. }
  apply Nat.ltb_ge in E1, E2.
  destruct (strip s) as [|a r] eqn:E; cbn [fst snd].
  - pose proof (strip_nil_whitespace s E) as W. settle.
  - assert (W : forallb isspace s = false).
    { destruct (forallb isspace s) eqn:W; [|reflexivity].
      rewrite (strip_whitespace s W) in E. discriminate. }
    settle.
Qed.

(** X6: [ChatRequestLogged] logs the value received, with its length,
    exactly when the length constraints pass; it accepts exactly the
    strings of 1 to 1000 characters that are not whitespace-only, and
    returns them stripped. *)
Theorem ChatRequestLogged_behaviour :
  forall {U : Unicode} (s v : str),
    (fst (ChatRequestLogged_message (Some s)) = Some (s, length s) <->
     (1 <= length s <= 1000)%nat) /\
    (fst (ChatRequestLogged_message (Some s)) = None <->
     ~ (1 <= length s <= 1000)%nat) /\
    (snd (ChatRequestLogged_message (Some s)) = Ok v <->
     (1 <= length s <= 1000)%nat /\ forallb isspace s = false /\ v = strip s).
Proof. intros U s v. apply ChatRequestLogged_message_spec. Qed.

(** X7: the approaches are nested: what [ChatRequest] accepts,
    [ChatRequestLogged] accepts with the same result; what
    [ChatRequestLogged] accepts, [MessageStr] accepts as received; and
    [QueryMessage] accepts exactly the strings of [MessageStr] of at most
    500 characters. *)
Theorem validators_nested :
  forall {U : Unicode} (s v : str),
    (validate (Some s) = Ok v -> snd (ChatRequestLogged_message (Some s)) = Ok v) /\
    (snd (ChatRequestLogged_message (Some s)) = Ok v -> MessageStr (Some s) = Ok s) /\
    (QueryMessage (Some s) = Ok s <->
     MessageStr (Some s) = Ok s /\ (length s <= 500)%nat).
Proof.
  intros U s v. split; [|split].
  - intros H. destruct (validate_Ok _ _ H) as [s' [E [L V]]]. injection E as <-.
    destruct (validate_message_Ok _ _ V) as [-> [N _]].
    apply ChatRequestLogged_message_spec. split; [exact L|]. split; [|reflexivity].
    destruct (forallb isspace s) eqn:W; [|reflexivity].
    rewrite (strip_whitespace s W) in N. congruence.
  - intros H. apply ChatRequestLogged_message_spec in H as [L _].
    unfold MessageStr. apply str_field_in_range. exact L.
  - unfold QueryMessage, MessageStr. split.
    + intros H. destruct (str_field_Ok _ _ _ _ _ H) as [s' [E [L _]]]. injection E as <-.
      split; [apply str_field_in_range|]; lia.
    + intros [H L]. destruct (str_field_Ok _ _ _ _ _ H) as [s' [E [L' _]]]. injection E as <-.
      apply str_field_in_range. lia.
Qed.

Section ExampleValidators.
Context {U : Unicode}.

Lemma validate_message_manual_cases :
  forall s : str,
    validate_message_manual s =
    match s with
    | [] => (false, lit "Mensagem não pode estar vazia")
    | _ :: _ =>
        if (length (strip s) <? 1)%nat then (false, lit "Mensagem muito curta")
        else if (1000 <? length (strip s))%nat
        then (false, lit "Mensagem muito longa (máximo 1000 caracteres)")
        else if negb (any_isalnum (strip s))
        then (false, lit "Mensagem deve conter pelo menos um caractere alfanumérico")
        else if has_forbidden_word (strip s)
        then (false, lit "Mensagem contém conteúdo proibido")
        else (true, [])
    end.
Proof. intros [|c r]; reflexivity. Qed.

Lemma validate_message_manual_spec :
  forall s : str,
    (fst (validate_message_manual s) = true <->
     (1 <= length (strip s) <= 1000)%nat /\
     any_isalnum (strip s) = true /\
     has_forbidden_word (strip s) = false) /\
    (snd (validate_message_manual s) = [] <->
     fst (validate_message_manual s) = true).
Proof.
  intros s. rewrite validate_message_manual_cases.
  destruct s as [|c r] eqn:S.
  { cbn [fst snd]. assert (E : strip [] = []) by reflexivity. rewrite E.
    cbn [length]. settle. }
  rewrite <- S. clear S.
  destruct (length (strip s) <? 1)%nat eqn:E1.
  { apply Nat.ltb_lt in E1. cbn [fst snd]. settle. }
  destruct (1000 <? length (strip s))%nat eqn:E2.
  { apply Nat.ltb_lt in E2. cbn [fst snd]. settle. }
  apply Nat.ltb_ge in E1, E2.
  destruct (any_isalnum (strip s)) eqn:A; cbn [negb]; [|cbn [fst snd]; settle].
  destruct (has_forbidden_word (strip s)) eqn:F; cbn [fst snd]; settle.
Qed.

(** X8: [validate_message_manual] answers valid exactly when the stripped
    message has 1 to 1000 characters, contains an alphanumeric character
    and contains no forbidden word in lower case; the error message is
    empty exactly when the answer is valid. *)
Theorem validate_message_manual_criterion :
  forall s : str,
    (fst (validate_message_manual s) = true <->
     (1 <= length (strip s) <= 1000)%nat /\
     any_isalnum (strip s) = true /\
     has_forbidden_word (strip s) = false) /\
    (snd (validate_message_manual s) = [] <->
     fst (validate_message_manual s) = true).
Proof. intros s. apply validate_message_manual_spec. Qed.

(** X9: on strings of at most 1000 characters the manual validation and
    [ChatRequest] differ only by the forbidden words: the manual one
    answers valid exactly when [ChatRequest] accepts a message without
    forbidden word. *)
Theorem manual_vs_ChatRequest :
  forall s : str, (length s <= 1000)%nat ->
    (fst (validate_message_manual s) = true <->
     exists v, validate (Some s) = Ok v /\ has_forbidden_word v = false).
Proof.
  intros s L. pose proof (strip_length s) as SL.
  rewrite (proj1 (validate_message_manual_spec s)). split.
  - intros [[L1 L2] [A F]]. exists (strip s). split; [|exact F].
    rewrite validate_in_range by lia. unfold validate_message.
    destruct (strip s) as [|a r]; [simpl in L1; lia|]. rewrite A. reflexivity.
  - intros [v [H F]]. destruct (validate_Ok _ _ H) as [s' [E [L' V]]]. injection E as <-.
    destruct (validate_message_Ok _ _ V) as [-> [N A]].
    repeat split; try assumption; try lia.
    destruct (strip s); [congruence | simpl; lia].
Qed.

(** X10: the manual validation measures the length after stripping and
    [ChatRequest] before: a string of more than 1000 characters whose
    stripped form is valid is accepted by the first and rejected as too
    long by the second; and a non-empty whitespace-only string is "too
    short" for the first whatever its length. *)
Theorem manual_measures_after_strip :
  forall s : str,
    ((length s > 1000)%nat ->
     (length (strip s) <= 1000)%nat -> any_isalnum (strip s) = true ->
     has_forbidden_word (strip s) = false ->
     fst (validate_message_manual s) = true /\
     validate (Some s) = Err TooLong) /\
    (s <> [] -> forallb isspace s = true ->
     validate_message_manual s = (false, lit "Mensagem muito curta")).
Proof.
  intros s. split.
  - intros L L' A F. split; [|apply validate_max_length; exact L].
    apply (proj1 (validate_message_manual_spec s)).
    repeat split; try assumption.
    destruct (strip s); [discriminate A | simpl; lia].
  - intros N W. rewrite validate_message_manual_cases.
    destruct s as [|c r]; [congruence|].
    rewrite (strip_whitespace _ W). reflexivity.
Qed.

(** X11: [POST /chat/v2] answers 400 with a non-empty detail exactly when
    the manual validation fails, and otherwise echoes the message as it
    was received, untrimmed. *)
Theorem chat_with_manual_validation_outcome :
  forall s : str,
    (fst (validate_message_manual s) = true ->
     chat_with_manual_validation s = inr (lit "Mensagem validada: " ++ s)) /\
    (fst (validate_message_manual s) = false ->
     exists detail, chat_with_manual_validation s = inl detail /\ detail <> []).
Proof.
  intros s. pose proof (proj2 (validate_message_manual_spec s)) as E.
  unfold chat_with_manual_validation.
  destruct (validate_message_manual s) as [ok msg]. cbn [fst snd] in *.
  split; intros ->; cbn [negb].
  - reflexivity.
  - exists msg. split; [reflexivity|]. intros K. apply E in K. discriminate.
Qed.

(** No character is both alphanumeric and whitespace, and the space is
    whitespace. *)
Hypothesis alnum_not_space : forall c, isalnum c = true -> isspace c = false.
Hypothesis space_is_space : isspace 32 = true.

(** X12: the message [MessageValidated] returns is a fixed point: it is
    accepted again and returned unchanged; it has 1 to 1000 characters, an
    alphanumeric one among them, and no whitespace other than single
    spaces between words. *)
Theorem MessageValidated_idempotent :
  forall s v,
    MessageValidated_message (Some s) = Ok v ->
    MessageValidated_message (Some v) = Ok v /\
    (1 <= length v <= 1000)%nat /\
    any_isalnum v = true /\
    strip v = v /\
    collapse_spaces v = v.
Proof.
  intros s v H.
  apply MessageValidated_message_Ok in H as [c [H ->]].
  destruct (validate_Ok_bounds _ _ H) as [[L1 L2] [L3 A]].
  pose proof (collapse_spaces_idempotent space_is_space c) as I.
  pose proof (collapse_spaces_length c) as L.
  set (v := collapse_spaces c) in *.
  assert (A' : any_isalnum v = true).
  { unfold any_isalnum, v.
    rewrite (collapse_spaces_existsb space_is_space isalnum alnum_not_space). exact A. }
  assert (C : collapse_spaces (strip v) = v).
  { unfold collapse_spaces at 1. rewrite str_split_strip. exact I. }
  assert (T : strip v = v).
  { pose proof (collapse_spaces_length (strip v)) as K. rewrite C in K.
    destruct (strip_split v) as [pre [post [E [_ _]]]].
    assert (LE : length v = (length pre + (length (strip v) + length post))%nat)
      by (rewrite E at 1; rewrite !length_app; reflexivity).
    assert (pre = []) by (apply length_zero_iff_nil; lia).
    assert (post = []) by (apply length_zero_iff_nil; lia).
    subst pre post. rewrite app_nil_r in E. symmetry. exact E. }
  assert (N : v <> []) by (intros K; rewrite K in A'; discriminate).
  assert (Lv : (1 <= length v <= 1000)%nat).
  { split; [destruct v; [congruence | simpl; lia] | lia]. }
  split; [|repeat split; try assumption; lia].
  unfold MessageValidated_message. rewrite str_field_in_range by exact Lv.
  unfold validate_message_content. rewrite T.
  destruct v as [|a r] eqn:V; [congruence|].
  rewrite A'. cbn [negb]. rewrite <- V in *. rewrite I. reflexivity.
Qed.
End ExampleValidators.

(** ** More on the endpoint *)

Lemma round_half_even_error :
  forall y, (inject_Z (round_half_even y) - y <= 1 # 2)%Q /\
            (y - inject_Z (round_half_even y) <= 1 # 2)%Q.
Proof.
  intros y. unfold round_half_even.
  pose proof (Qfloor_le y) as Lo. pose proof (Qlt_floor y) as Hi.
  rewrite inject_Z_plus in Hi. change (inject_Z 1) with 1%Q in Hi.
  set (f := Qfloor y) in *. set (F := inject_Z f) in *.
  destruct (y - F ?= 1 # 2)%Q eqn:E.
  - apply Qeq_alt in E.
    destruct (Z.even f); [|rewrite inject_Z_plus; change (inject_Z 1) with 1%Q];
      fold F; split; lra.
  - apply Qlt_alt in E. fold F. split; lra.
  - apply Qgt_alt in E. rewrite inject_Z_plus. change (inject_Z 1) with 1%Q.
    fold F. split; lra.
Qed.

Lemma round3_error :
  forall x, (round3 x - x <= 1 # 2000)%Q /\ (x - round3 x <= 1 # 2000)%Q.
Proof.
  intros x. unfold round3.
  destruct (round_half_even_error (x * 1000)) as [A B].
  rewrite Qmake_Qdiv. change (inject_Z (Zpos 1000)) with 1000%Q.
  set (R := inject_Z (round_half_even (x * 1000))) in *.
  split.
  - apply Qle_minus_iff. apply Qle_minus_iff in A.
    setoid_replace ((1 # 2000) + - (R / 1000 - x))%Q
      with (((1 # 2) + - (R - x * 1000)) / 1000)%Q by field. 
    apply Qle_shift_div_l; [reflexivity|]. lra.
  - apply Qle_minus_iff. apply Qle_minus_iff in B.
    setoid_replace ((1 # 2000) + - (x - R / 1000))%Q
      with (((1 # 2) + - (x * 1000 - R)) / 1000)%Q by field.
    apply Qle_shift_div_l; [reflexivity|]. lra.
Qed.

Lemma round3_at_least_half : forall x, (1 # 2 <= x)%Q -> (1 # 2 <= round3 x)%Q.
Proof.
  intros x H. unfold round3.
  assert (F : 500 <= Qfloor (x * 1000)).
  { rewrite <- (Qfloor_Z 500). apply Qfloor_resp_le.
    change (inject_Z 500) with 500%Q. lra. }
  pose proof (round_half_even_floor (x * 1000)) as R.
  unfold Qle. simpl. lia.
Qed.

Section MoreChatFacts.
Context {U : Unicode} {G C : Type} {RS : RandomSource G} {CK : Clock C}.

(** X13: the reported processing time is at least half a second and
    within half a millisecond of the time read around the sleep. *)
Theorem processing_time_bounds :
  forall request (w : World G C),
    exists t,
      processing_time (fst (chat request w)) = Some t /\
      (1 # 2 <= t)%Q /\
      (t - (end_time_of w - start_time_of w) <= 1 # 2000)%Q /\
      ((end_time_of w - start_time_of w) - t <= 1 # 2000)%Q.
Proof.
  intros request w. rewrite chat_response. cbn [processing_time].
  eexists. split; [reflexivity|].
  destruct (round3_error (end_time_of w - start_time_of w)) as [A B].
  split; [|split; assumption].
  apply round3_at_least_half.
  pose proof (sleep_elapses (Float64.to_Q (delay_of w)) (clock w)) as SE.
  pose proof (delay_at_least_half (drawn_bits w) (genrand_res53_range (rng w))) as D.
  fold (delay_of w) in D. unfold end_time_of, start_time_of. lra.
Qed.


(** X15: every run draws from the generator exactly twice, once for the
    delay and once for the pool, also when the reply is contextual and the
    drawn entry is discarded: the generator and the clock it leaves do not
    depend on the request, and the trace grows by three events. *)
Theorem chat_effects :
  forall request request' (w : World G C),
    rng (snd (chat request w))
    = snd (randbelow (length BOT_RESPONSES) (snd (genrand_res53 (rng w)))) /\
    rng (snd (chat request w)) = rng (snd (chat request' w)) /\
    clock (snd (chat request w)) = clock (snd (chat request' w)) /\
    length (trace (snd (chat request w))) = (length (trace w) + 3)%nat.
Proof.
  intros request request' w. rewrite !chat_world. cbn [rng clock trace].
  rewrite length_app. repeat split.
Qed.

(** The four keyword rules of the chain, on the message. *)
Definition keyword_rule (m : str) : bool :=
  let ml := lower m in
  contains (lit "olá") ml || contains (lit "oi") ml ||
  contains (lit "como vai") ml ||
  contains (lit "tchau") ml || contains (lit "adeus") ml ||
  contains (lit "ajuda") ml.

Lemma reply_of_keyword :
  forall m uid (w : World G C) fallback,
    keyword_rule m = true ->
    reply_of {| message := m; user_id := uid |} w
    = contextual_reply [] (lower m) fallback.
Proof.
  intros m uid w fallback. unfold keyword_rule, reply_of, contextual_reply. cbn [message].
  destruct (contains (lit "olá") _), (contains (lit "oi") _),
    (contains (lit "como vai") _), (contains (lit "tchau") _),
    (contains (lit "adeus") _), (contains (lit "ajuda") _);
    simpl; intros H; try reflexivity; discriminate.
Qed.

Lemma reply_of_question :
  forall request (w : World G C),
    keyword_rule (message request) = false ->
    contains (lit "?") (message request) = true ->
    reply_of request w = question_reply (message request).
Proof.
  intros request w. unfold keyword_rule, reply_of, contextual_reply.
  destruct (contains (lit "olá") _), (contains (lit "oi") _),
    (contains (lit "como vai") _), (contains (lit "tchau") _),
    (contains (lit "adeus") _), (contains (lit "ajuda") _);
    simpl; intros H Q; try discriminate. rewrite Q. reflexivity.
Qed.
End MoreChatFacts.

Lemma startswith_app : forall x s : str, startswith x (x ++ s) = true.
Proof.
  induction x as [|c x IH]; intros s; [destruct s; reflexivity|].
  simpl. rewrite Z.eqb_refl. apply IH.
Qed.

Lemma contains_app :
  forall x pre post : str, contains x (pre ++ x ++ post) = true.
Proof.
  intros x pre post. induction pre as [|c pre IH].
  - simpl. destruct (x ++ post) eqn:E; simpl; rewrite <- E, startswith_app; reflexivity.
  - simpl. rewrite IH. apply orb_true_r.
Qed.

(** X16: in the question branch the reply quotes the message as received,
    between double quotes, and is 79 characters longer than it. *)
Theorem question_reply_quotes :
  forall {U : Unicode} {G C : Type} {RS : RandomSource G} {CK : Clock C}
         request (w : World G C),
    keyword_rule (message request) = false ->
    contains (lit "?") (message request) = true ->
    let r := reply (fst (chat request w)) in
    contains ([34] ++ message request ++ [34]) r = true /\
    length r = (length (message request) + 79)%nat.
Proof.
  intros U G C RS CK request w K Q r. subst r.
  rewrite chat_reply, (reply_of_question request w K Q). unfold question_reply.
  set (a := lit "Boa pergunta! Sobre ").
  set (b := lit ", eu diria que é um tópico interessante para explorarmos.").
  split.
  - replace (a ++ [34] ++ message request ++ [34] ++ b)
      with (a ++ ([34] ++ message request ++ [34]) ++ b)
      by (rewrite <- !app_assoc; reflexivity).
    apply contains_app.
  - assert (La : length a = 20%nat) by (vm_compute; reflexivity).
    assert (Lb : @length Z b = 57%nat) by (vm_compute; reflexivity).
    rewrite !length_app, La, Lb. simpl. lia.
Qed.

(** X17: the keyword rules are case-insensitive: two messages with the
    same lower-casing, one of which matches a keyword rule, get the same
    reply, under any two random sources and worlds. *)
Theorem keyword_reply_case_insensitive :
  forall {U : Unicode} {G1 C1 G2 C2 : Type}
         {RS1 : RandomSource G1} {CK1 : Clock C1}
         {RS2 : RandomSource G2} {CK2 : Clock C2}
         m1 m2 uid1 uid2 (w1 : World G1 C1) (w2 : World G2 C2),
    lower m1 = lower m2 ->
    keyword_rule m1 = true ->
    reply (fst (chat {| message := m1; user_id := uid1 |} w1))
    = reply (fst (chat {| message := m2; user_id := uid2 |} w2)).
Proof.
  intros U G1 C1 G2 C2 RS1 CK1 RS2 CK2 m1 m2 uid1 uid2 w1 w2 E K.
  assert (K2 : keyword_rule m2 = true) by (unfold keyword_rule in *; rewrite <- E; exact K).
  rewrite !chat_reply.
  rewrite (reply_of_keyword m1 uid1 w1 [] K), (reply_of_keyword m2 uid2 w2 [] K2), E.
  reflexivity.
Qed.

(** X18: a rejected request has no effect at all (no log record, no draw,
    no sleep): the handler returns the validation error and the world it
    was given; an accepted one is answered with the length of the
    validated message, between 1 and 1000. *)
Theorem post_api_chat_outcome :
  forall {U : Unicode} {G C : Type} {RS : RandomSource G} {CK : Clock C}
         raw uid (w : World G C),
    (forall e, validate raw = Err e -> post_api_chat raw uid w = (Err e, w)) /\
    (forall v, validate raw = Ok v ->
       exists r, fst (post_api_chat raw uid w) = Ok r /\
                 message_length r = Some (length v) /\
                 (1 <= length v <= 1000)%nat /\
                 length (trace (snd (post_api_chat raw uid w)))
                 = (length (trace w) + 3)%nat).
Proof.
  intros U G C RS CK raw uid w. unfold post_api_chat, ChatRequest_validate. split.
  - intros e E. rewrite E. reflexivity.
  - intros v E. rewrite E. unfold bind, ret.
    pose proof (chat_response {| message := v; user_id := uid |} w) as R.
    pose proof (chat_world {| message := v; user_id := uid |} w) as W.
    destruct (chat {| message := v; user_id := uid |} w) as [r w'].
    cbn [fst snd] in *. exists r. split; [reflexivity|].
    split; [rewrite R; reflexivity|]. split.
    + destruct raw as [s|]; [|discriminate].
      destruct (validate_Ok_bounds s v E) as [[L1 L2] [L3 _]]. lia.
    + rewrite W. cbn [trace]. rewrite length_app. reflexivity.
Qed.

(** ** Runs of the further properties on the simulated interpreter *)

Lemma latin1_space_is_space : @isspace latin1 32 = true.
Proof. reflexivity. Qed.

Lemma collapse_spaces_normal_form_witness :
  @str_split latin1 (@collapse_spaces latin1 (lit "  Olá   mundo "))
  = @str_split latin1 (lit "  Olá   mundo ").
Proof.
  exact (proj1 (@collapse_spaces_normal_form latin1 latin1_space_is_space
                  (lit "  Olá   mundo "))).
Defined.

Lemma manual_vs_ChatRequest_witness :
  fst (@validate_message_manual latin1 (lit "  Olá  ")) = true.
Proof.
  apply (proj2 (@manual_vs_ChatRequest latin1 (lit "  Olá  ")
                  ltac:(vm_compute; lia))).
  exists (lit "Olá"). split; vm_compute; reflexivity.
Defined.

(** One letter followed by 1000 spaces: valid for the manual validation,
    too long for [ChatRequest]. *)
Lemma manual_measures_after_strip_witness :
  fst (@validate_message_manual latin1 (97 :: repeat 32 1000)) = true /\
  @validate latin1 (Some (97 :: repeat 32 1000)) = Err TooLong.
Proof.
  apply (proj1 (@manual_measures_after_strip latin1 (97 :: repeat 32 1000))).
  - cbn [length]. rewrite repeat_length. lia.
  - vm_compute. lia.
  - vm_compute. reflexivity.
  - vm_compute. reflexivity.
Defined.

Lemma MessageValidated_idempotent_witness :
  @MessageValidated_message latin1 (Some (lit "Olá mundo")) = Ok (lit "Olá mundo").
Proof.
  apply (proj1 (@MessageValidated_idempotent latin1 latin1_alnum_not_space
                  latin1_space_is_space (lit "  Olá   mundo  ") (lit "Olá mundo")
                  ltac:(vm_compute; reflexivity))).
Defined.

Lemma question_reply_quotes_witness :
  contains ([34] ++ lit "Qual é o seu nome?" ++ [34])
    (reply (fst (sim_chat {| message := lit "Qual é o seu nome?"; user_id := None |} 42)))
  = true.
Proof.
  apply (proj1 (@question_reply_quotes latin1 Z Q Lcg SimClock
                  {| message := lit "Qual é o seu nome?"; user_id := None |}
                  (sim_world 42)
                  ltac:(vm_compute; reflexivity) ltac:(vm_compute; reflexivity))).
Defined.

Lemma keyword_reply_case_insensitive_witness :
  reply (fst (sim_chat {| message := lit "OLÁ"; user_id := None |} 1))
  = reply (fst (sim_chat {| message := lit "olá"; user_id := Some (lit "user123") |} 2)).
Proof.
  apply (@keyword_reply_case_insensitive latin1 Z Q Z Q Lcg SimClock Lcg SimClock
           (lit "OLÁ") (lit "olá") None (Some (lit "user123"))
           (sim_world 1) (sim_world 2)).
  - vm_compute. reflexivity.
  - vm_compute. reflexivity.
Defined.

(** The other validators on the inputs of the tests. *)
Example collapse_spaces_run :
  @collapse_spaces latin1 (lit "Olá   mundo") = lit "Olá mundo".
Proof. vm_compute. reflexivity. Qed.

Example str_split_run :
  @str_split latin1 (lit "  a  bc d ") = [lit "a"; lit "bc"; lit "d"].
Proof. vm_compute. reflexivity. Qed.

Example manual_forbidden_word :
  @validate_message_manual latin1 (lit "Isto é SPAM")
  = (false, lit "Mensagem contém conteúdo proibido").
Proof. vm_compute. reflexivity. Qed.

Example logged_accepts_punctuation :
  @ChatRequestLogged_message latin1 (Some (lit " !!! "))
  = (Some (lit " !!! ", 5%nat), Ok (lit "!!!")).
Proof. vm_compute. reflexivity. Qed.
